(** * The state coordinator of the EVM node (src/state/state.go)

    A shallow embedding of [State] and its methods.  The coordinator owns
    three ledger views (the committed [ethState], the write-ahead state and
    the transaction pool), all backed by one durable key-value store.  The
    [*ethState.StateDB] objects are pointers in the Go code, so they live in
    a heap here; the methods are written in a state monad over that heap,
    the durable store, the coordinator's own fields, and two journals (the
    calls made to the collaborators, and the logger's output). *)

From Stdlib Require Import ZArith Ascii String List Lia.
From Stdlib.Strings Require Import Byte.
From stdpp Require Import base option list gmap strings.

Open Scope Z_scope.

(** ** Plain data *)

Definition bytes := list byte.

#[global] Instance byte_eq_dec' : EqDecision byte := byte_eq_dec.

(** A Go [error] value, identified by its message; [nil] is [None] of
    [option error]. *)
Definition error := string.

(** A Go result pair [(v, err)] of which exactly one side is meaningful. *)
Inductive result (A : Type) : Type :=
| Ok (a : A)
| Err (e : error).
Arguments Ok {A} a.
Arguments Err {A} e.

Definition is_Err {A} (r : result A) : bool :=
  match r with Err _ => true | Ok _ => false end.

(** [common.Hash] is [[32]byte]; [common.Address] is [[20]byte]. *)
Definition HashLength : nat := 32.
Definition Hash := bytes.
Definition Address := bytes.

(** [common.Hash{}] *)
Definition zeroHash : Hash := repeat x00 HashLength.

(** [common.BytesToHash]: keeps the last 32 bytes of a longer input, pads a
    shorter one with zeros on the left. *)
Definition BytesToHash (b : bytes) : Hash :=
  let b' := if (HashLength <? length b)%nat
            then drop (length b - HashLength)%nat b else b in
  repeat x00 (HashLength - length b')%nat ++ b'.

(** [Hash.Bytes()] *)
Definition Hash_Bytes (h : Hash) : bytes := h.

(** The package-level variables of state.go. *)
Definition chainID : Z := 1.
Definition gasLimit : Z := 1000000000000000000.
Definition txMetaSuffix : bytes := [x01].
Definition receiptsPrefix : bytes := list_byte_of_string "receipts-".
Definition MIPMapLevels : list Z := [1000000; 500000; 100000; 50000; 1000].
Definition rootKey : bytes := list_byte_of_string "root".

(** The durable store ([ethdb.Database]) seen through [Get]: for every key
    either the stored bytes or the error [Get] reports (ethdb reports an
    absent key as an error, and returns no data with an error). *)
Definition Database := bytes → result bytes.

(** Pointers to [StateDB] objects. *)
Definition loc := positive.

(** [ethTypes.Message] *)
Record Message := {
  msg_from : Address;
  msg_to : option Address;
  msg_nonce : Z;
  msg_amount : Z;
  msg_gasLimit : Z;
  msg_gasPrice : Z;
  msg_data : bytes;
  msg_checkNonce : bool
}.

(** The fields of [vm.Context] that [Call] fills in from the message;
    [CanTransfer], [Transfer] and [GetHash] are fixed functions. *)
Record Context := {
  Origin : Address;
  GasPrice : Z
}.

(** [ethTypes.Signer] (EIP155 with a chain id), [params.ChainConfig]
    (only [ChainId] is set) and [vm.Config] (a struct logger as tracer). *)
Record Config := {
  signer : Z;
  chainConfig : Z;
  vmConfig : unit
}.

(** One entry of [bcommon.AccountMap]; a Go map is given as the list of its
    entries in the order the [range] loop visits them. *)
Record Account := {
  Balance : string;
  Code : string;
  Storage : list (string * string)
}.
Definition AccountMap := list (string * Account).

(** ** The logger *)

Inductive Level := DebugLevel | ErrorLevel.

Inductive LogField :=
| WithError (e : error)
| WithFieldHex (key : string) (h : Hash)
| WithField (key : string) (value : string).

Record LogEntry := {
  level : Level;
  fields : list LogField;
  message : string
}.

(** ** The collaborators *)

(** What the collaborators can reach: the durable store and the heap of
    [StateDB] objects. *)
Record Env (S : Type) := {
  db : Database;
  heap : gmap loc S
}.
Arguments db {S} _.
Arguments heap {S} _.

(** ** The coordinator and its world *)

(** [type State struct], for a write-ahead state of type [W] and a pool of
    type [P]: [nil] pointers are [None].  The field [db] is the store of
    the world below, and [logger] its log. *)
Record StateOf (W P : Type) := {
  ethState : option loc;
  was : option W;
  txPool : option P;
  config : Config
}.
Arguments ethState {W P} _.
Arguments was {W P} _.
Arguments txPool {W P} _.
Arguments config {W P} _.

(** The calls the coordinator makes to its collaborators, as they happen,
    for transactions of type [T]. *)
Inductive CallEventOf (T : Type) :=
| DbGet (key : bytes)
| EthStateNew (root : Hash)
| NewWAS (root : Hash)
| NewPool (statedb : loc)
| WasCommit
| EthStateReset (root : Hash)
| WasReset (root : Hash)
| PoolReset (root : Hash)
| WasApplyTransaction (t : T) (txIndex : Z) (blockHash : Hash)
| PoolCheckTx (tx : T).
Arguments DbGet {T} key.
Arguments EthStateNew {T} root.
Arguments NewWAS {T} root.
Arguments NewPool {T} statedb.
Arguments WasCommit {T}.
Arguments EthStateReset {T} root.
Arguments WasReset {T} root.
Arguments PoolReset {T} root.
Arguments WasApplyTransaction {T} t txIndex blockHash.
Arguments PoolCheckTx {T} tx.

Record WorldOf (S W P T : Type) := {
  self : StateOf W P;
  env : Env S;
  calls : list (CallEventOf T);
  logs : list LogEntry
}.
Arguments self {S W P T} _.
Arguments env {S W P T} _.
Arguments calls {S W P T} _.
Arguments logs {S W P T} _.

(** A call returns a value and leaves a world, or panics. *)
Inductive OutcomeOf (Σ A : Type) : Type :=
| Returns (a : A) (σ : Σ)
| Panics (reason : string).
Arguments Returns {Σ A} a σ.
Arguments Panics {Σ A} reason.

(** The code the coordinator calls but does not contain.  The first group
    is go-ethereum ([core/state], [core], [common], [common/math], [rlp]);
    a [StateDB] method is given as a function on the contents of the object
    it is called on.  The second group is the write-ahead state and the
    transaction pool of this package, of which state.go uses the
    constructors, the methods and the field [ethState]; they receive the
    object they are called on and everything they can reach. *)
Class Backend := {
  StateDBv : Type;
  Transaction : Type;
  Receipt : Type;
  WriteAheadState : Type;
  TxPool : Type;

  sdb_New : Hash → Database → result StateDBv;
  sdb_Copy : StateDBv → StateDBv;
  sdb_Reset : Hash → Database → StateDBv → result StateDBv;
  sdb_GetBalance : StateDBv → Address → Z;
  sdb_GetNonce : StateDBv → Address → Z;
  sdb_AddBalance : Address → Z → StateDBv → StateDBv;
  sdb_SetCode : Address → bytes → StateDBv → StateDBv;
  sdb_SetState : Address → Hash → Hash → StateDBv → StateDBv;
  core_ApplyMessage :
    Context → Config → Message → Z → StateDBv → StateDBv * (bytes * option error);
  HexToAddress : string → Address;
  Hex2Bytes : string → bytes;
  HexToHash : string → Hash;
  ParseBig256 : string → option Z;
  rlp_Decode : bytes → result Transaction;
  rlp_DecodeBytes_tx : bytes → result Transaction;
  rlp_DecodeBytes_receipt : bytes → result Receipt;
  tx_Hash : Transaction → Hash;
  tx_String : Transaction → string;

  was_ethState : WriteAheadState → loc;
  pool_ethState : TxPool → loc;
  was_New : Hash → Config → Z → Env StateDBv → result WriteAheadState * Env StateDBv;
  pool_New : loc → Config → Z → Env StateDBv → TxPool * Env StateDBv;
  was_Commit :
    WriteAheadState → Env StateDBv → (Hash * option error) * WriteAheadState * Env StateDBv;
  was_Reset :
    Hash → WriteAheadState → Env StateDBv → option error * WriteAheadState * Env StateDBv;
  was_ApplyTransaction :
    Transaction → Z → Hash → WriteAheadState → Env StateDBv →
    option error * WriteAheadState * Env StateDBv;
  pool_Reset :
    Hash → TxPool → Env StateDBv → option error * TxPool * Env StateDBv;
  pool_CheckTx :
    Transaction → TxPool → Env StateDBv → option error * TxPool * Env StateDBv
}.

Section Coordinator.
Context {B : Backend}.

(** The types above, for the backend at hand. *)
Definition State : Type := StateOf WriteAheadState TxPool.
Definition CallEvent : Type := CallEventOf Transaction.
Definition World : Type := WorldOf StateDBv WriteAheadState TxPool Transaction.
Definition Outcome (A : Type) : Type := OutcomeOf World A.

Definition set_self (s : State) (σ : World) : World :=
  {| self := s; env := env σ; calls := calls σ; logs := logs σ |}.
Definition set_env (e : Env StateDBv) (σ : World) : World :=
  {| self := self σ; env := e; calls := calls σ; logs := logs σ |}.
Definition add_call (c : CallEvent) (σ : World) : World :=
  {| self := self σ; env := env σ; calls := calls σ ++ [c]; logs := logs σ |}.
Definition add_log (l : LogEntry) (σ : World) : World :=
  {| self := self σ; env := env σ; calls := calls σ; logs := logs σ ++ [l] |}.

Definition set_ethState (p : option loc) (s : State) : State :=
  {| ethState := p; was := was s; txPool := txPool s; config := config s |}.
Definition set_was (w : option WriteAheadState) (s : State) : State :=
  {| ethState := ethState s; was := w; txPool := txPool s; config := config s |}.
Definition set_txPool (p : option TxPool) (s : State) : State :=
  {| ethState := ethState s; was := was s; txPool := p; config := config s |}.
Definition set_heap (h : gmap loc StateDBv) (e : Env StateDBv) : Env StateDBv :=
  {| db := db e; heap := h |}.

(** ** The monad: state, and Go's panics *)

Definition M (A : Type) : Type := World → Outcome A.

#[global] Instance M_ret : MRet M := λ A a σ, Returns a σ.
#[global] Instance M_bind : MBind M := λ A C f m σ,
  match m σ with
  | Returns a σ' => f a σ'
  | Panics r => Panics r
  end.

Definition panic {A} (reason : string) : M A := λ _, Panics reason.
Definition getState : M State := λ σ, Returns (self σ) σ.
Definition modifyState (f : State → State) : M unit :=
  λ σ, Returns tt (set_self (f (self σ)) σ).
Definition getEnv : M (Env StateDBv) := λ σ, Returns (env σ) σ.
Definition putEnv (e : Env StateDBv) : M unit := λ σ, Returns tt (set_env e σ).
Definition called (c : CallEvent) : M unit := λ σ, Returns tt (add_call c σ).
Definition logf (lv : Level) (fs : list LogField) (msg : string) : M unit :=
  λ σ, Returns tt (add_log {| level := lv; fields := fs; message := msg |} σ).

Definition nilDeref : string := "invalid memory address or nil pointer dereference".

(** Following a pointer: a [nil] pointer panics. *)
Definition deref {A} (p : option A) : M A :=
  match p with
  | Some a => mret a
  | None => panic nilDeref
  end.

(** Reading, replacing and creating a [StateDB] object. *)
Definition load (l : loc) : M StateDBv :=
  e ← getEnv; deref (heap e !! l).
Definition store (l : loc) (v : StateDBv) : M unit :=
  e ← getEnv; putEnv (set_heap (<[l := v]> (heap e)) e).
Definition alloc (v : StateDBv) : M loc :=
  e ← getEnv;
  let l := fresh (dom (heap e)) in
  putEnv (set_heap (<[l := v]> (heap e)) e);; mret l.

(** ** Calls on the collaborators *)

(** [s.db.Get(key)] *)
Definition db_Get (key : bytes) : M (result bytes) :=
  called (DbGet key);;
  e ← getEnv; mret (db e key).

(** [ethState.New(root, ethState.NewDatabase(s.db))] *)
Definition ethState_New (root : Hash) : M (result loc) :=
  called (EthStateNew root);;
  e ← getEnv;
  match sdb_New root (db e) with
  | Ok v => l ← alloc v; mret (Ok l)
  | Err err => mret (Err err)
  end.

(** [NewWriteAheadState(s.db, root, s.signer, s.chainConfig, s.vmConfig, gasLimit, s.logger)] *)
Definition NewWriteAheadState (root : Hash) (cfg : Config) (gl : Z)
  : M (result WriteAheadState) :=
  called (NewWAS root);;
  e ← getEnv;
  let '(r, e') := was_New root cfg gl e in
  putEnv e';; mret r.

(** [NewTxPool(statedb, s.signer, s.chainConfig, s.vmConfig, gasLimit, s.logger)] *)
Definition NewTxPool (statedb : loc) (cfg : Config) (gl : Z) : M TxPool :=
  called (NewPool statedb);;
  e ← getEnv;
  let '(p, e') := pool_New statedb cfg gl e in
  putEnv e';; mret p.

(** The methods of [*ethState.StateDB], on a pointer. *)
Definition StateDB_Copy (l : loc) : M loc :=
  v ← load l; alloc (sdb_Copy v).

Definition StateDB_Reset (l : loc) (root : Hash) : M (option error) :=
  v ← load l;
  e ← getEnv;
  match sdb_Reset root (db e) v with
  | Ok v' => store l v';; mret None
  | Err err => mret (Some err)
  end.

Definition StateDB_GetBalance (l : loc) (addr : Address) : M Z :=
  v ← load l; mret (sdb_GetBalance v addr).

Definition StateDB_GetNonce (l : loc) (addr : Address) : M Z :=
  v ← load l; mret (sdb_GetNonce v addr).

Definition StateDB_AddBalance (l : loc) (addr : Address) (amount : Z) : M unit :=
  v ← load l; store l (sdb_AddBalance addr amount v).

Definition StateDB_SetCode (l : loc) (addr : Address) (code : bytes) : M unit :=
  v ← load l; store l (sdb_SetCode addr code v).

Definition StateDB_SetState (l : loc) (addr : Address) (key value : Hash) : M unit :=
  v ← load l; store l (sdb_SetState addr key value v).

(** [core.ApplyMessage(vm.NewEVM(context, statedb, &s.chainConfig, s.vmConfig),
    msg, new(core.GasPool).AddGas(gas))]: runs on the object [statedb]
    points to, and mutates it. *)
Definition ApplyMessage (context : Context) (cfg : Config) (statedb : loc)
    (msg : Message) (gas : Z) : M (bytes * option error) :=
  v ← load statedb;
  let '(v', r) := core_ApplyMessage context cfg msg gas v in
  store statedb v';; mret r.

(** [math.MustParseBig256] *)
Definition MustParseBig256 (s : string) : M Z :=
  match ParseBig256 s with
  | Some v => mret v
  | None => panic ("invalid 256 bit integer: " +:+ s)
  end.

(** [s.ethState.Reset(root)] *)
Definition ethState_Reset (root : Hash) : M (option error) :=
  s ← getState;
  l ← deref (ethState s);
  called (EthStateReset root);;
  StateDB_Reset l root.

(** [s.was.Commit()] *)
Definition WriteAheadState_Commit : M (Hash * option error) :=
  s ← getState;
  w ← deref (was s);
  called WasCommit;;
  e ← getEnv;
  let '(r, w', e') := was_Commit w e in
  putEnv e';; modifyState (set_was (Some w'));; mret r.

(** [s.was.Reset(root)] *)
Definition WriteAheadState_Reset (root : Hash) : M (option error) :=
  s ← getState;
  w ← deref (was s);
  called (WasReset root);;
  e ← getEnv;
  let '(r, w', e') := was_Reset root w e in
  putEnv e';; modifyState (set_was (Some w'));; mret r.

(** [s.was.ApplyTransaction(t, txIndex, blockHash)] *)
Definition WriteAheadState_ApplyTransaction (t : Transaction) (txIndex : Z)
    (blockHash : Hash) : M (option error) :=
  s ← getState;
  w ← deref (was s);
  called (WasApplyTransaction t txIndex blockHash);;
  e ← getEnv;
  let '(r, w', e') := was_ApplyTransaction t txIndex blockHash w e in
  putEnv e';; modifyState (set_was (Some w'));; mret r.

(** [s.txPool.Reset(root)] *)
Definition TxPool_Reset (root : Hash) : M (option error) :=
  s ← getState;
  p ← deref (txPool s);
  called (PoolReset root);;
  e ← getEnv;
  let '(r, p', e') := pool_Reset root p e in
  putEnv e';; modifyState (set_txPool (Some p'));; mret r.

(** [s.txPool.CheckTx(tx)] *)
Definition TxPool_CheckTx (tx : Transaction) : M (option error) :=
  s ← getState;
  p ← deref (txPool s);
  called (PoolCheckTx tx);;
  e ← getEnv;
  let '(r, p', e') := pool_CheckTx tx p e in
  putEnv e';; modifyState (set_txPool (Some p'));; mret r.

(** [s.was.ethState] *)
Definition was_ethState_ptr : M loc :=
  s ← getState; w ← deref (was s); mret (was_ethState w).

(** ** The methods of [State] *)

(** [func (s *State) InitState() error] *)
Definition InitState : M (option error) :=
  r ← db_Get rootKey;
  let data := match r with Ok d => d | Err _ => [] end in
  rootHash ←
    (if bool_decide (length data ≠ 0%nat)
     then let rootHash := BytesToHash data in
          logf DebugLevel [WithFieldHex "root" rootHash] "Existing State Root";;
          mret rootHash
     else mret zeroHash);
  r ← ethState_New rootHash;
  match r with
  | Err err => modifyState (set_ethState None);; mret (Some err)
  | Ok l =>
    modifyState (set_ethState (Some l));;
    s ← getState;
    r ← NewWriteAheadState rootHash (config s) gasLimit;
    match r with
    | Err err => modifyState (set_was None);; mret (Some err)
    | Ok w =>
      modifyState (set_was (Some w));;
      s ← getState;
      l ← deref (ethState s);
      cp ← StateDB_Copy l;
      p ← NewTxPool cp (config s) gasLimit;
      modifyState (set_txPool (Some p));;
      mret None
    end
  end.

(** [int(limit.Cur)]: the conversion of a [uint64] to [int]. *)
Definition int_of_uint64 (u : Z) : Z :=
  if u <? 2 ^ 63 then u else u - 2 ^ 64.

(** [func getFdLimit() (int, error)], for what
    [syscall.Getrlimit(syscall.RLIMIT_NOFILE, &limit)] answers: the soft
    limit [limit.Cur], or an error. *)
Definition getFdLimit (getrlimit : result Z) : result Z :=
  match getrlimit with
  | Err err => Err err
  | Ok cur => Ok (int_of_uint64 cur)
  end.

(** The coordinator [NewState] builds before it calls [InitState], over
    the store it opened. *)
Definition blank (d : Database) : World :=
  {| self := {| ethState := None; was := None; txPool := None;
                config := {| signer := chainID; chainConfig := chainID;
                             vmConfig := tt |} |};
     env := {| db := d; heap := ∅ |};
     calls := [];
     logs := [] |}.

(** What [NewState] gives: a node, an error, or a panic. *)
Inductive Started :=
| Node (σ : World)
| Failed (err : error)
| Crashed (reason : string).

(** [func NewState(logger *logrus.Logger, dbFile string, dbCache int) ( *State, error)],
    for what the system and [ethdb.NewLDBDatabase] answer. *)
Definition NewState (getrlimit : result Z)
    (NewLDBDatabase : string → Z → Z → result Database)
    (dbFile : string) (dbCache : Z) : Started :=
  match getFdLimit getrlimit with
  | Err err => Failed err
  | Ok handles =>
    match NewLDBDatabase dbFile dbCache handles with
    | Err err => Failed err
    | Ok d =>
      match InitState (blank d) with
      | Returns (Some err) _ => Failed err
      | Returns None σ => Node σ
      | Panics reason => Crashed reason
      end
    end
  end.

(** [func (s *State) Commit() (common.Hash, error)] *)
Definition Commit : M (Hash * option error) :=
  '(root, err) ← WriteAheadState_Commit;
  match err with
  | Some e =>
    logf ErrorLevel [WithError e] "Committing WAS";;
    mret (root, Some e)
  | None =>
    err ← ethState_Reset root;
    match err with
    | Some e =>
      logf ErrorLevel [WithError e] "Resetting main StateDB";;
      mret (root, Some e)
    | None =>
      logf DebugLevel [WithFieldHex "root" root] "Committed";;
      err ← WriteAheadState_Reset root;
      match err with
      | Some e =>
        logf ErrorLevel [WithError e] "Resetting WAS";;
        mret (root, Some e)
      | None =>
        logf DebugLevel [] "Reset WAS";;
        err ← TxPool_Reset root;
        match err with
        | Some e =>
          logf ErrorLevel [WithError e] "Resetting TxPool";;
          mret (root, Some e)
        | None =>
          logf DebugLevel [] "Reset TxPool";;
          mret (root, None)
        end
      end
    end
  end.

(** [func (s *State) Call(callMsg ethTypes.Message) ([]byte, error)] *)
Definition Call (callMsg : Message) : M (bytes * option error) :=
  logf DebugLevel [] "Call";;
  let context := {| Origin := msg_from callMsg; GasPrice := msg_gasPrice callMsg |} in
  l ← was_ethState_ptr;
  statedb ← StateDB_Copy l;
  s ← getState;
  '(res, err) ← ApplyMessage context (config s) statedb callMsg gasLimit;
  match err with
  | Some e =>
    logf ErrorLevel [WithError e] "Executing Call on WAS";;
    mret ([], Some e)
  | None => mret (res, None)
  end.

(** [func (s *State) CheckTx(tx *ethTypes.Transaction) error] *)
Definition CheckTx (tx : Transaction) : M (option error) :=
  TxPool_CheckTx tx.

(** [func (s *State) ApplyTransaction(txBytes []byte, txIndex int, blockHash common.Hash) error] *)
Definition ApplyTransaction (txBytes : bytes) (txIndex : Z) (blockHash : Hash)
  : M (option error) :=
  match rlp_Decode txBytes with
  | Err e =>
    logf ErrorLevel [WithError e] "Decoding Transaction";;
    mret (Some e)
  | Ok t =>
    logf DebugLevel [WithFieldHex "hash" (tx_Hash t)] "Decoded tx";;
    logf DebugLevel [WithField "tx" (tx_String t)] "";;
    WriteAheadState_ApplyTransaction t txIndex blockHash
  end.

(** The inner loop of [CreateAccounts]: [for key, value := range account.Storage]. *)
Fixpoint rangeStorage (address : Address) (kvs : list (string * string)) : M unit :=
  match kvs with
  | [] => mret tt
  | (key, value) :: kvs' =>
    l ← was_ethState_ptr;
    StateDB_SetState l address (HexToHash key) (HexToHash value);;
    rangeStorage address kvs'
  end.

(** The outer loop of [CreateAccounts]: [for addr, account := range accounts]. *)
Fixpoint rangeAccounts (accounts : AccountMap) : M unit :=
  match accounts with
  | [] => mret tt
  | (addr, account) :: rest =>
    let address := HexToAddress addr in
    l ← was_ethState_ptr;
    amount ← MustParseBig256 (Balance account);
    StateDB_AddBalance l address amount;;
    l ← was_ethState_ptr;
    StateDB_SetCode l address (Hex2Bytes (Code account));;
    rangeStorage address (Storage account);;
    logf DebugLevel [WithField "address" addr] "Adding account";;
    rangeAccounts rest
  end.

(** [func (s *State) CreateAccounts(accounts bcommon.AccountMap) error] *)
Definition CreateAccounts (accounts : AccountMap) : M (option error) :=
  rangeAccounts accounts;;
  '(_, err) ← Commit;
  mret err.

(** [func (s *State) GetBalance(addr common.Address) *big.Int] *)
Definition GetBalance (addr : Address) : M Z :=
  s ← getState; l ← deref (ethState s); StateDB_GetBalance l addr.

(** [func (s *State) GetNonce(addr common.Address) uint64] *)
Definition GetNonce (addr : Address) : M Z :=
  s ← getState; l ← deref (ethState s); StateDB_GetNonce l addr.

(** [func (s *State) GetPoolNonce(addr common.Address) uint64] *)
Definition GetPoolNonce (addr : Address) : M Z :=
  s ← getState; p ← deref (txPool s); StateDB_GetNonce (pool_ethState p) addr.

(** [func (s *State) GetTransaction(hash common.Hash) ( *ethTypes.Transaction, error)] *)
Definition GetTransaction (hash : Hash) : M (option Transaction * option error) :=
  r ← db_Get (Hash_Bytes hash);
  match r with
  | Err e =>
    logf ErrorLevel [WithError e] "GetTransaction";;
    mret (None, Some e)
  | Ok data =>
    match rlp_DecodeBytes_tx data with
    | Err e =>
      logf ErrorLevel [WithError e] "Decoding Transaction";;
      mret (None, Some e)
    | Ok tx => mret (Some tx, None)
    end
  end.

(** [func (s *State) GetReceipt(txHash common.Hash) ( *ethTypes.Receipt, error)] *)
Definition GetReceipt (txHash : Hash) : M (option Receipt * option error) :=
  r ← db_Get (receiptsPrefix ++ Hash_Bytes txHash);
  match r with
  | Err e =>
    logf ErrorLevel [WithError e] "GetReceipt";;
    mret (None, Some e)
  | Ok data =>
    match rlp_DecodeBytes_receipt data with
    | Err e =>
      logf ErrorLevel [WithError e] "Decoding Receipt";;
      mret (None, Some e)
    | Ok receipt => mret (Some receipt, None)
    end
  end.

End Coordinator.

(** * A reference ledger

    A small in-memory implementation of the collaborators, on which the
    coordinator runs on concrete inputs.  Accounts are kept in an
    association list; a committed ledger is stored whole in the durable
    store under its root. *)

Module Ref.

#[global] Instance byte_countable : Countable byte :=
  inj_countable Byte.to_N Byte.of_N Byte.of_to_N.

(** Balance, nonce, code and storage of one account. *)
Definition AccountState : Type := Z * Z * bytes * list (Hash * Hash).
Definition Ledger : Type := list (Address * AccountState).

Definition emptyAccount : AccountState := (0, 0, [], []).

Fixpoint getAccount (a : Address) (L : Ledger) : AccountState :=
  match L with
  | [] => emptyAccount
  | (a', acc) :: L' => if decide (a = a') then acc else getAccount a L'
  end.

Fixpoint setAccount (a : Address) (acc : AccountState) (L : Ledger) : Ledger :=
  match L with
  | [] => [(a, acc)]
  | (a', acc') :: L' =>
    if decide (a = a') then (a, acc) :: L' else (a', acc') :: setAccount a acc L'
  end.

Definition balanceOf (L : Ledger) (a : Address) : Z :=
  let '(bal, _, _, _) := getAccount a L in bal.
Definition nonceOf (L : Ledger) (a : Address) : Z :=
  let '(_, n, _, _) := getAccount a L in n.
Definition credit (a : Address) (amount : Z) (L : Ledger) : Ledger :=
  let '(bal, n, c, st) := getAccount a L in setAccount a (bal + amount, n, c, st) L.
Definition withNonce (a : Address) (n : Z) (L : Ledger) : Ledger :=
  let '(bal, _, c, st) := getAccount a L in setAccount a (bal, n, c, st) L.
Definition withCode (a : Address) (code : bytes) (L : Ledger) : Ledger :=
  let '(bal, n, _, st) := getAccount a L in setAccount a (bal, n, code, st) L.
Definition withStorage (a : Address) (key value : Hash) (L : Ledger) : Ledger :=
  let '(bal, n, c, st) := getAccount a L in
  setAccount a (bal, n, c, (key, value) :: filter (λ kv, kv.1 ≠ key) st) L.

(** Serialisation, through the encoding of countable types: one byte per
    binary digit. *)
Fixpoint pos_to_bytes (p : positive) : bytes :=
  match p with
  | xH => []
  | xO p => x00 :: pos_to_bytes p
  | xI p => x01 :: pos_to_bytes p
  end.
Fixpoint bytes_to_pos (b : bytes) : positive :=
  match b with
  | [] => xH
  | x00 :: b => xO (bytes_to_pos b)
  | _ :: b => xI (bytes_to_pos b)
  end.
Definition marshal {A} `{Countable A} (a : A) : bytes := pos_to_bytes (encode a).
Definition unmarshal {A} `{Countable A} (b : bytes) : option A := decode (bytes_to_pos b).

(** The root of a ledger: the empty ledger has the zero hash. *)
Definition rootOf (L : Ledger) : Hash := BytesToHash (marshal L).

Definition put (k v : bytes) (d : Database) : Database :=
  λ k', if decide (k' = k) then Ok v else d k'.

(** A store holding nothing, and a store whose reads of one key fail. *)
Definition emptyDB : Database := λ _, Err "leveldb: not found".
Definition unreadable (k : bytes) (d : Database) : Database :=
  λ k', if decide (k' = k) then Err "read: input/output error" else d k'.

(** [ethState.New]: the zero root opens the empty ledger, any other root
    must be in the store. *)
Definition openAt (root : Hash) (d : Database) : result Ledger :=
  if decide (root = zeroHash) then Ok []
  else match d root with
       | Ok b => match unmarshal b with
                 | Some L => Ok L
                 | None => Err "invalid trie node"
                 end
       | Err _ => Err "missing trie node"
       end.

(** [core.ApplyMessage] without code execution and with free gas: checks
    the nonce where the message asks for it, buys the gas, bumps the
    sender's nonce and transfers the value. *)
Definition execute (ctx : Context) (cfg : Config) (msg : Message) (gas : Z)
    (L : Ledger) : Ledger * (bytes * option error) :=
  let from := msg_from msg in
  if msg_checkNonce msg && negb (nonceOf L from =? msg_nonce msg) then
    (L, ([], Some (if nonceOf L from <? msg_nonce msg
                   then "nonce too high" else "nonce too low")))
  else if balanceOf L from <? msg_gasLimit msg * msg_gasPrice msg then
    (L, ([], Some "insufficient balance to pay for gas"))
  else
    let L1 := withNonce from (nonceOf L from + 1) L in
    if balanceOf L1 from <? msg_amount msg then
      (L1, ([], Some "insufficient balance for transfer"))
    else
      match msg_to msg with
      | Some to => (credit to (msg_amount msg)
                      (credit from (- msg_amount msg) L1), ([], None))
      | None => (L1, ([], None))
      end.

(** Hexadecimal strings. *)
Definition hexDigit (a : ascii) : option N :=
  let n := N_of_ascii a in
  if ((48 <=? n) && (n <=? 57))%N then Some (n - 48)%N
  else if ((97 <=? n) && (n <=? 102))%N then Some (n - 87)%N
  else if ((65 <=? n) && (n <=? 70))%N then Some (n - 55)%N
  else None.

Fixpoint hexPairs (s : string) : bytes :=
  match s with
  | String a (String b rest) =>
    match hexDigit a, hexDigit b with
    | Some x, Some y => default x00 (Byte.of_N (16 * x + y)) :: hexPairs rest
    | _, _ => []
    end
  | _ => []
  end.

Definition has0xPrefix (s : string) : bool :=
  match s with
  | String "0" (String ("x" | "X") _) => true
  | _ => false
  end.

Definition fromHex (s : string) : bytes :=
  let s := if has0xPrefix s then String.substring 2 (String.length s - 2) s else s in
  hexPairs (if Nat.odd (String.length s) then String "0" s else s).

Definition bytesToAddress (b : bytes) : Address :=
  let b' := if (20 <? length b)%nat then drop (length b - 20)%nat b else b in
  repeat x00 (20 - length b')%nat ++ b'.

(** [math.ParseBig256]: the empty string is zero; otherwise
    [big.Int.SetString] reads what follows a 0x or 0X prefix in base 16,
    and a string without the prefix in base 10: an optional sign, then at
    least one digit and nothing else.  The number has at most 256 bits. *)
Fixpoint digits (base : N) (s : string) (acc : N) : option N :=
  match s with
  | EmptyString => Some acc
  | String a rest =>
    match hexDigit a with
    | Some d => if (d <? base)%N then digits base rest (acc * base + d)%N else None
    | None => None
    end
  end.

Definition sign (s : string) : bool * string :=
  match s with
  | String "-" rest => (true, rest)
  | String "+" rest => (false, rest)
  | _ => (false, s)
  end.

Definition parseBig256 (s : string) : option Z :=
  if decide (s = EmptyString) then Some 0
  else
    let '(body, base) :=
      if has0xPrefix s then (String.substring 2 (String.length s - 2) s, 16%N)
      else (s, 10%N) in
    let '(neg, body) := sign body in
    if decide (body = EmptyString) then None
    else match digits base body 0 with
         | Some n =>
           if (N.size n <=? 256)%N
           then Some (if neg then - Z.of_N n else Z.of_N n)
           else None
         | None => None
         end.

(** A transaction: sender, recipient, nonce, value, gas price. *)
Definition Tx : Type := Address * Address * Z * Z * Z.
(** A receipt: status and gas used. *)
Definition Rcpt : Type := Z * Z.

Definition asMessage (t : Tx) : Message :=
  let '(from, to, n, value, price) := t in
  {| msg_from := from; msg_to := Some to; msg_nonce := n; msg_amount := value;
     msg_gasLimit := 21000; msg_gasPrice := price; msg_data := [];
     msg_checkNonce := true |}.

Definition decodeAs {A} `{Countable A} (b : bytes) : result A :=
  match unmarshal b with
  | Some a => Ok a
  | None => Err "rlp: value does not decode"
  end.

Definition txDigest (t : Tx) : Hash := BytesToHash (marshal t).

(** The configuration [NewState] sets up. *)
Definition cfg0 : Config :=
  {| signer := chainID; chainConfig := chainID; vmConfig := tt |}.

(** An operating system with 1024 descriptors, and a store that opens on
    given contents whatever the file. *)
Definition rlimit : result Z := Ok 1024.
Definition opens (d : Database) : string → Z → Z → result Database :=
  λ _ _ _, Ok d.

Definition ctxOf (m : Message) : Context :=
  {| Origin := msg_from m; GasPrice := msg_gasPrice m |}.

(** Modelled from the spec: the write-ahead state (was.go is not among the
    sources).  It holds its own ledger object and the transactions applied
    since the last reset, with their receipts. *)
Definition WAS : Type := loc * list (Tx * Rcpt).

(** Modelled from the spec: the transaction pool (tx_pool.go is not among
    the sources), a ledger object of its own. *)
Definition Pool : Type := loc.

(** Modelled from the spec: WAS is initialized from the given root. *)
Definition wasOpen (root : Hash) (cfg : Config) (gl : Z) (e : Env Ledger)
  : result WAS * Env Ledger :=
  match openAt root (db e) with
  | Ok L => let l := fresh (dom (heap e)) in
            (Ok (l, []), {| db := db e; heap := <[l := L]> (heap e) |})
  | Err err => (Err err, e)
  end.

(** Modelled from the spec: the pool works on the copy it is given. *)
Definition poolOpen (statedb : loc) (cfg : Config) (gl : Z) (e : Env Ledger)
  : Pool * Env Ledger := (statedb, e).

(** Modelled from the spec: [ApplyTransaction] executes the transaction
    against the current WAS view; an execution error is recorded as the
    status of the receipt and the transaction is still counted. *)
Definition wasApply (t : Tx) (txIndex : Z) (blockHash : Hash)
    (w : WAS) (e : Env Ledger) : option error * WAS * Env Ledger :=
  let '(l, pending) := w in
  match heap e !! l with
  | None => (Some "write-ahead state is closed", w, e)
  | Some L =>
    let m := asMessage t in
    let '(L', (_, err)) := execute (ctxOf m) cfg0 m gasLimit L in
    let receipt := (match err with Some _ => 0 | None => 1 end, 0) in
    (None, (l, pending ++ [(t, receipt)]),
     {| db := db e; heap := <[l := L']> (heap e) |})
  end.

(** Modelled from the spec: [Commit] finalizes the transactions applied
    since the last reset into the durable store, with their receipts,
    computes the new root, and writes the root pointer last.  A store that
    is not [durable] loses the ledger it is given to keep. *)
Definition wasCommit (durable : bool) (w : WAS) (e : Env Ledger)
  : (Hash * option error) * WAS * Env Ledger :=
  let '(l, pending) := w in
  match heap e !! l with
  | None => ((zeroHash, Some "write-ahead state is closed"), w, e)
  | Some L =>
    let root := rootOf L in
    let d1 := if durable then put root (marshal L) (db e) else db e in
    let d2 := fold_left
                (λ d '(t, r), put (receiptsPrefix ++ txDigest t) (marshal r)
                                (put (txDigest t) (marshal t) d))
                pending d1 in
    ((root, None), w, {| db := put rootKey root d2; heap := heap e |})
  end.

(** Modelled from the spec: [Reset] discards the in-memory WAS and
    reinitializes it from the given root. *)
Definition wasReset (root : Hash) (w : WAS) (e : Env Ledger)
  : option error * WAS * Env Ledger :=
  let '(l, pending) := w in
  match openAt root (db e) with
  | Ok L => (None, (l, []), {| db := db e; heap := <[l := L]> (heap e) |})
  | Err err => (Some err, w, e)
  end.

(** Modelled from the spec: the pool's [Reset] discards the speculative
    bookkeeping and reinitializes from the given root. *)
Definition poolReset (root : Hash) (p : Pool) (e : Env Ledger)
  : option error * Pool * Env Ledger :=
  match openAt root (db e) with
  | Ok L => (None, p, {| db := db e; heap := <[p := L]> (heap e) |})
  | Err err => (Some err, p, e)
  end.

(** Modelled from the spec: [CheckTx] checks nonce and balance against the
    pool's view and, on success, keeps the speculative debit. *)
Definition poolCheck (t : Tx) (p : Pool) (e : Env Ledger)
  : option error * Pool * Env Ledger :=
  match heap e !! p with
  | None => (Some "pool is closed", p, e)
  | Some L =>
    let m := asMessage t in
    match execute (ctxOf m) cfg0 m gasLimit L with
    | (L', (_, None)) => (None, p, {| db := db e; heap := <[p := L']> (heap e) |})
    | (_, (_, Some err)) => (Some err, p, e)
    end
  end.

(** The reference ledger as a backend of the coordinator. *)
Definition ledger (durable : bool) : Backend := {|
  StateDBv := Ledger;
  Transaction := Tx;
  Receipt := Rcpt;
  WriteAheadState := WAS;
  TxPool := Pool;
  sdb_New := openAt;
  sdb_Copy := λ L, L;
  sdb_Reset := λ root d _, openAt root d;
  sdb_GetBalance := balanceOf;
  sdb_GetNonce := nonceOf;
  sdb_AddBalance := credit;
  sdb_SetCode := withCode;
  sdb_SetState := withStorage;
  core_ApplyMessage := execute;
  HexToAddress := λ s, bytesToAddress (fromHex s);
  Hex2Bytes := hexPairs;
  HexToHash := λ s, BytesToHash (fromHex s);
  ParseBig256 := parseBig256;
  rlp_Decode := decodeAs;
  rlp_DecodeBytes_tx := decodeAs;
  rlp_DecodeBytes_receipt := decodeAs;
  tx_Hash := txDigest;
  tx_String := λ _, "tx";
  was_ethState := fst;
  pool_ethState := λ p, p;
  was_New := wasOpen;
  pool_New := poolOpen;
  was_Commit := wasCommit durable;
  was_Reset := wasReset;
  was_ApplyTransaction := wasApply;
  pool_Reset := poolReset;
  pool_CheckTx := poolCheck
|}.

End Ref.

(** * Auxiliary definitions for the statements *)

(** The value a call returned, if it returned. *)
Definition returned `{B : Backend} {A} (o : Outcome A) : option A :=
  match o with
  | Returns a _ => Some a
  | Panics _ => None
  end.

(** The world after [s.ethState.Reset(root)] replaced the object at [l]. *)
Definition after_ethState_Reset `{B : Backend} (root : Hash) (l : loc)
    (v' : StateDBv) (σ : World) : World :=
  set_env (set_heap (<[l := v']> (heap (env σ))) (env σ))
          (add_call (EthStateReset root) σ).

(** The root [InitState] starts from: the hash of the bytes the read of
    [rootKey] gives, the zero hash when the read reports an error. *)
Definition storedRoot (d : Database) : Hash :=
  match d rootKey with
  | Ok data => BytesToHash data
  | Err _ => zeroHash
  end.

(** What a lookup answers for what the store and the decoder give. *)
Definition lookup_answer {A} (got : result bytes) (decode : bytes → result A)
  : option A * option error :=
  match got with
  | Err e => (None, Some e)
  | Ok data => match decode data with
               | Err e => (None, Some e)
               | Ok a => (Some a, None)
               end
  end.

(** What [Call] hands back for an answer of [core.ApplyMessage]. *)
Definition Call_answer (r : bytes * option error) : bytes * option error :=
  match r with
  | (_, Some e) => ([], Some e)
  | (res, None) => (res, None)
  end.

(** What [CreateAccounts] is to write into the ledger object of the WAS,
    in the words of its description: for each listed account, its balance
    is added, its code is set, and each of its storage entries is set.
    [None] when a balance does not parse. *)
Definition seedStorage `{B : Backend} (address : Address)
    (kvs : list (string * string)) (v : StateDBv) : StateDBv :=
  fold_left (λ v kv, sdb_SetState address (HexToHash kv.1) (HexToHash kv.2) v) kvs v.

Definition seedAccount `{B : Backend} (addr : string) (account : Account)
    (amount : Z) (v : StateDBv) : StateDBv :=
  let address := HexToAddress addr in
  seedStorage address (Storage account)
    (sdb_SetCode address (Hex2Bytes (Code account))
       (sdb_AddBalance address amount v)).

Fixpoint seedAccounts `{B : Backend} (accounts : AccountMap) (v : StateDBv)
  : option StateDBv :=
  match accounts with
  | [] => Some v
  | (addr, account) :: rest =>
    match ParseBig256 (Balance account) with
    | Some amount => seedAccounts rest (seedAccount addr account amount v)
    | None => None
    end
  end.

(** The line [CreateAccounts] logs for an account. *)
Definition addingAccount (addr : string) : LogEntry :=
  {| level := DebugLevel; fields := [WithField "address" addr];
     message := "Adding account" |}.

(** The world in which the object at [l] holds [v] and [lg] was logged. *)
Definition written `{B : Backend} (l : loc) (v : StateDBv) (lg : list LogEntry)
    (σ : World) : World :=
  {| self := self σ;
     env := {| db := db (env σ); heap := <[l := v]> (heap (env σ)) |};
     calls := calls σ;
     logs := logs σ ++ lg |}.

(** The world a call leaves behind ([σ] itself after a panic). *)
Definition world_after `{B : Backend} {A} (σ : World) (o : Outcome A) : World :=
  match o with
  | Returns _ σ' => σ'
  | Panics _ => σ
  end.

(** ** Concrete worlds of the reference ledger *)

(** The ledger over a store that keeps what it is given, and over one that
    loses the ledgers it is given. *)
Definition solid : Backend := Ref.ledger true.
Definition lossy : Backend := Ref.ledger false.

Definition alice : string := "0x00000000000000000000000000000000000000a1".
Definition bob : string := "0x00000000000000000000000000000000000000b2".

Definition genesis : AccountMap :=
  [(alice, {| Balance := "100"; Code := "6000"; Storage := [("01", "02")] |})].

(** An account map whose only balance is not a number. *)
Definition malformed : AccountMap :=
  [(alice, {| Balance := "12abc"; Code := ""; Storage := [] |})].

(** A read-only transfer of 10 from alice to bob, at no gas price. *)
Definition transfer10 : Message :=
  {| msg_from := Ref.bytesToAddress (Ref.fromHex alice);
     msg_to := Some (Ref.bytesToAddress (Ref.fromHex bob));
     msg_nonce := 0; msg_amount := 10; msg_gasLimit := 21000; msg_gasPrice := 0;
     msg_data := []; msg_checkNonce := false |}.

(** A transfer of 30 from alice to bob with nonce 0, as a transaction. *)
Definition tx30 : Ref.Tx :=
  (Ref.bytesToAddress (Ref.fromHex alice), Ref.bytesToAddress (Ref.fromHex bob),
   0, 30, 0).

(** A node started on an empty store. *)
Definition started (B : Backend) : World :=
  match NewState Ref.rlimit (Ref.opens Ref.emptyDB) "evm.db" 0 with
  | Node σ => σ
  | _ => blank Ref.emptyDB
  end.

(** The same node with the genesis accounts written into the write-ahead
    state, before any commit. *)
Definition seeded (B : Backend) : World :=
  world_after (started B) (rangeAccounts genesis (started B)).

(** The node after the genesis accounts were committed, the transfer of 30
    was applied, and that was committed too. *)
Definition settled : World :=
  let σ1 := world_after (seeded solid) (Commit (seeded solid)) in
  let σ2 := world_after σ1 (ApplyTransaction (B := solid) (Ref.marshal tx30) 0 zeroHash σ1) in
  world_after σ2 (Commit σ2).

(** A node restarted on the store of [settled], where the read of the root
    pointer fails. *)
Definition restarted_unreadable : World :=
  blank (B := solid) (Ref.unreadable rootKey (db (env settled))).

(** * Definitions for the further properties *)

(** The calls on the collaborators log nothing, and leave the pointer
    [s.ethState] and the configuration alone. *)
Definition untouched `{B : Backend} (σ σ' : World) : Prop :=
  logs σ' = logs σ
  ∧ ethState (self σ') = ethState (self σ)
  ∧ config (self σ') = config (self σ).

(** The log lines of [Commit]. *)
Definition committed_line (root : Hash) : LogEntry :=
  {| level := DebugLevel; fields := [WithFieldHex "root" root]; message := "Committed" |}.
Definition debug_line (msg : string) : LogEntry :=
  {| level := DebugLevel; fields := []; message := msg |}.
Definition error_line (e : error) (msg : string) : LogEntry :=
  {| level := ErrorLevel; fields := [WithError e]; message := msg |}.

(** What go-ethereum's [StateDB] promises about balances: [AddBalance]
    adds to the balance of its address and to no other, [SetCode] and
    [SetState] change no balance. *)
Definition balance_laws `{B : Backend} : Prop :=
  (∀ a a' n v, sdb_GetBalance (sdb_AddBalance a' n v) a
               = if decide (a = a') then sdb_GetBalance v a + n
                 else sdb_GetBalance v a)
  ∧ (∀ a a' c v, sdb_GetBalance (sdb_SetCode a' c v) a = sdb_GetBalance v a)
  ∧ (∀ a a' k x v, sdb_GetBalance (sdb_SetState a' k x v) a = sdb_GetBalance v a).

(** The sum of the balances an account map lists for the address [a],
    over all the keys that denote [a]. *)
Fixpoint credited `{B : Backend} (a : Address) (accounts : AccountMap) : Z :=
  match accounts with
  | [] => 0
  | (addr, account) :: rest =>
    (if decide (HexToAddress addr = a)
     then default 0 (ParseBig256 (Balance account)) else 0)
    + credited a rest
  end.

(** ** cmd/evm/commands/run.go *)

Module Commands.
Section Run.

(** The socket engine, and the process and network it acts on. *)
Context {Engine Sys : Type}.

(** [fmt.Errorf(format, err)] for a format that ends in its only verb,
    [%s]: [prefix] is the format without the verb. *)
Definition Errorf (prefix : string) (err : error) : error := prefix +:+ err.

(** [func run(cmd *cobra.Command, args []string) error], for
    [engine.NewSocketEngine( *config, logger)] and [socketEngine.Run()]. *)
Definition run (NewSocketEngine : Sys → result Engine * Sys)
    (Run : Engine → Sys → option error * Sys) (w : Sys) : option error * Sys :=
  match NewSocketEngine w with
  | (Err err, w1) => (Some (Errorf "error building Engine: " err), w1)
  | (Ok socketEngine, w1) =>
    match Run socketEngine w1 with
    | (Some err, w2) => (Some (Errorf "error running Engine: " err), w2)
    | (None, w2) => (None, w2)
    end
  end.

End Run.
End Commands.

(** * Properties of the coordinator *)

(** ** The embedding on concrete inputs *)

Example BytesToHash_short : BytesToHash [x01; x02] = repeat x00 30 ++ [x01; x02].
Proof. reflexivity. Qed.

Example BytesToHash_long :
  BytesToHash (xff :: xee :: repeat x07 32) = repeat x07 32.
Proof. reflexivity. Qed.

Example int_of_uint64_infinity : int_of_uint64 (2 ^ 64 - 1) = -1.
Proof. reflexivity. Qed.

Example parseBig256_signs :
  Ref.parseBig256 "-5" = Some (-5)
  ∧ Ref.parseBig256 "+5" = Some 5
  ∧ Ref.parseBig256 "0x-ff" = Some (-255)
  ∧ Ref.parseBig256 "-" = None
  ∧ Ref.parseBig256 "12abc" = None
  ∧ Ref.parseBig256 "" = Some 0.
Proof. repeat split; reflexivity. Qed.

Example receipts_key :
  receiptsPrefix ++ Hash_Bytes zeroHash
  = list_byte_of_string "receipts-" ++ repeat x00 32.
Proof. reflexivity. Qed.

(** Genesis gives alice 100; she sends 30 to bob with nonce 0; after the
    commit she has 70 and nonce 1, bob has 30, and the pool agrees on her
    nonce.  A node restarted on the same store finds the same balances. *)
Example transfer_scenario :
  let a := msg_from transfer10 in
  let b := default [] (msg_to transfer10) in
  returned (GetBalance (B := solid) a settled) = Some 70
  ∧ returned (GetBalance (B := solid) b settled) = Some 30
  ∧ returned (GetNonce (B := solid) a settled) = Some 1
  ∧ returned (GetPoolNonce (B := solid) a settled) = Some 1
  ∧ match NewState (B := solid) Ref.rlimit (Ref.opens (db (env settled))) "evm.db" 0 with
    | Node σ => returned (GetBalance a σ) = Some 70
    | _ => False
    end.
Proof. vm_compute. repeat split; reflexivity. Qed.

(** The pool admits a transaction with nonce 0, then one with nonce 1, and
    refuses a second one with nonce 1. *)
Example pool_scenario :
  let σ0 := world_after (seeded solid) (Commit (seeded solid)) in
  let tx n : Ref.Tx := (msg_from transfer10, default [] (msg_to transfer10), n, 1, 0) in
  let σ1 := world_after σ0 (CheckTx (B := solid) (tx 0) σ0) in
  let σ2 := world_after σ1 (CheckTx (B := solid) (tx 1) σ1) in
  returned (CheckTx (B := solid) (tx 0) σ0) = Some None
  ∧ returned (CheckTx (B := solid) (tx 1) σ1) = Some None
  ∧ returned (CheckTx (B := solid) (tx 1) σ2) = Some (Some "nonce too low")
  ∧ returned (GetPoolNonce (B := solid) (msg_from transfer10) σ2) = Some 2
  ∧ returned (GetNonce (B := solid) (msg_from transfer10) σ2) = Some 0.
Proof. vm_compute. repeat split; reflexivity. Qed.

(** ** Reduction of the monad *)

Ltac unfold_monad :=
  repeat progress unfold mbind, mret, M_bind, M_ret, panic, getState, modifyState, getEnv,
    putEnv, called, logf, deref, load, store, alloc in *.

Ltac unfold_calls :=
  repeat progress unfold db_Get, ethState_New, NewWriteAheadState, NewTxPool, StateDB_Copy,
    StateDB_Reset, StateDB_GetBalance, StateDB_GetNonce, StateDB_AddBalance,
    StateDB_SetCode, StateDB_SetState, ApplyMessage, MustParseBig256,
    ethState_Reset, WriteAheadState_Commit, WriteAheadState_Reset,
    WriteAheadState_ApplyTransaction, TxPool_Reset, TxPool_CheckTx,
    was_ethState_ptr in *.

Ltac world_simpl :=
  cbn [self env calls logs db heap ethState was txPool config fst snd
       set_self set_env add_call add_log set_heap set_was set_ethState
       set_txPool] in *.

Ltac mred := repeat progress (unfold_calls; unfold_monad; world_simpl).

(** Closing a goal about concrete inputs by running the definitions. *)
Ltac run := vm_compute; reflexivity.

(** What [s.was.Commit()] answers in a world, and what it leaves behind. *)
Lemma WriteAheadState_Commit_run `{B : Backend} (σ : World) w r w1 e1 :
  was (self σ) = Some w →
  was_Commit w (env σ) = (r, w1, e1) →
  WriteAheadState_Commit σ =
    Returns r (set_self (set_was (Some w1) (self σ)) (set_env e1 (add_call WasCommit σ))).
Proof.
  intros Hw Hc. mred.
  rewrite Hw. mred. rewrite Hc. reflexivity.
Qed.

Lemma bind_returns `{B : Backend} {A C} (m : M A) (f : A → M C) σ a σ' :
  m σ = Returns a σ' → (m ≫= f) σ = f a σ'.
Proof. intros H. unfold mbind, M_bind. now rewrite H. Qed.

Lemma bind_panics `{B : Backend} {A C} (m : M A) (f : A → M C) σ r :
  m σ = Panics r → (m ≫= f) σ = Panics r.
Proof. intros H. unfold mbind, M_bind. now rewrite H. Qed.

Lemma ethState_Reset_ok `{B : Backend} (σ : World) root l v v' :
  ethState (self σ) = Some l →
  heap (env σ) !! l = Some v →
  sdb_Reset root (db (env σ)) v = Ok v' →
  ethState_Reset root σ = Returns None (after_ethState_Reset root l v' σ).
Proof.
  intros Hl Hv Hr. mred.
  rewrite Hl. mred. rewrite Hv. mred. rewrite Hr. reflexivity.
Qed.

Lemma ethState_Reset_err `{B : Backend} (σ : World) root l v e :
  ethState (self σ) = Some l →
  heap (env σ) !! l = Some v →
  sdb_Reset root (db (env σ)) v = Err e →
  ethState_Reset root σ = Returns (Some e) (add_call (EthStateReset root) σ).
Proof.
  intros Hl Hv Hr. mred.
  rewrite Hl. mred. rewrite Hv. mred. rewrite Hr. reflexivity.
Qed.

Lemma WriteAheadState_Reset_run `{B : Backend} (σ : World) root w r w1 e1 :
  was (self σ) = Some w →
  was_Reset root w (env σ) = (r, w1, e1) →
  WriteAheadState_Reset root σ =
    Returns r (set_self (set_was (Some w1) (self σ))
                 (set_env e1 (add_call (WasReset root) σ))).
Proof.
  intros Hw Hc. mred.
  rewrite Hw. mred. rewrite Hc. reflexivity.
Qed.

Lemma TxPool_Reset_run `{B : Backend} (σ : World) root p r p1 e1 :
  txPool (self σ) = Some p →
  pool_Reset root p (env σ) = (r, p1, e1) →
  TxPool_Reset root σ =
    Returns r (set_self (set_txPool (Some p1) (self σ))
                 (set_env e1 (add_call (PoolReset root) σ))).
Proof.
  intros Hp Hc. mred.
  rewrite Hp. mred. rewrite Hc. reflexivity.
Qed.

(** [Commit] when [s.was.Commit()] fails: nothing else is called. *)
Lemma Commit_was_Commit_err `{B : Backend} (σ : World) w root e w1 e1 :
  was (self σ) = Some w →
  was_Commit w (env σ) = (root, Some e, w1, e1) →
  ∃ σ', Commit σ = Returns (root, Some e) σ'
        ∧ calls σ' = calls σ ++ [WasCommit]
        ∧ env σ' = e1
        ∧ ethState (self σ') = ethState (self σ)
        ∧ txPool (self σ') = txPool (self σ).
Proof.
  intros Hw Hc. unfold Commit.
  erewrite bind_returns by (eapply WriteAheadState_Commit_run; eauto).
  simpl. unfold_monad. simpl. eexists. split; [reflexivity|]. simpl. auto.
Qed.

(** [Commit] when [s.was.Commit()] succeeded and [s.ethState.Reset] fails. *)
Lemma Commit_ethState_Reset_err `{B : Backend} (σ : World) w root w1 e1 l v e :
  was (self σ) = Some w →
  was_Commit w (env σ) = (root, None, w1, e1) →
  ethState (self σ) = Some l →
  heap e1 !! l = Some v →
  sdb_Reset root (db e1) v = Err e →
  ∃ σ', Commit σ = Returns (root, Some e) σ'
        ∧ calls σ' = calls σ ++ [WasCommit; EthStateReset root]
        ∧ env σ' = e1.
Proof.
  intros Hw Hc Hl Hv Hr. unfold Commit.
  erewrite bind_returns by (eapply WriteAheadState_Commit_run; eauto).
  simpl.
  erewrite bind_returns by (eapply ethState_Reset_err; simpl; eauto).
  unfold_monad. simpl. eexists. split; [reflexivity|]. simpl.
  rewrite <- app_assoc. auto.
Qed.

(** ... and when [s.was.Reset] fails after that. *)
Lemma Commit_was_Reset_err `{B : Backend} (σ : World) w root w1 e1 l v v' e w2 e3 :
  was (self σ) = Some w →
  was_Commit w (env σ) = (root, None, w1, e1) →
  ethState (self σ) = Some l →
  heap e1 !! l = Some v →
  sdb_Reset root (db e1) v = Ok v' →
  was_Reset root w1 (set_heap (<[l := v']> (heap e1)) e1) = (Some e, w2, e3) →
  ∃ σ', Commit σ = Returns (root, Some e) σ'
        ∧ calls σ' = calls σ ++ [WasCommit; EthStateReset root; WasReset root]
        ∧ env σ' = e3.
Proof.
  intros Hw Hc Hl Hv Hr Hwr. unfold Commit.
  erewrite bind_returns by (eapply WriteAheadState_Commit_run; eauto).
  simpl.
  erewrite bind_returns by (eapply ethState_Reset_ok; simpl; eauto).
  unfold logf at 1.
  erewrite bind_returns by reflexivity.
  erewrite bind_returns by (eapply WriteAheadState_Reset_run; simpl; eauto).
  unfold_monad. simpl. eexists. split; [reflexivity|]. simpl.
  rewrite <- !app_assoc. auto.
Qed.

(** ... and when [s.txPool.Reset] fails at the end. *)
Lemma Commit_pool_Reset_err `{B : Backend} (σ : World) w root w1 e1 l v v' w2 e3
    p e p' e4 :
  was (self σ) = Some w →
  was_Commit w (env σ) = (root, None, w1, e1) →
  ethState (self σ) = Some l →
  heap e1 !! l = Some v →
  sdb_Reset root (db e1) v = Ok v' →
  was_Reset root w1 (set_heap (<[l := v']> (heap e1)) e1) = (None, w2, e3) →
  txPool (self σ) = Some p →
  pool_Reset root p e3 = (Some e, p', e4) →
  ∃ σ', Commit σ = Returns (root, Some e) σ'
        ∧ calls σ' = calls σ ++ [WasCommit; EthStateReset root; WasReset root;
                                 PoolReset root]
        ∧ env σ' = e4.
Proof.
  intros Hw Hc Hl Hv Hr Hwr Hp Hpr. unfold Commit.
  erewrite bind_returns by (eapply WriteAheadState_Commit_run; eauto).
  simpl.
  erewrite bind_returns by (eapply ethState_Reset_ok; simpl; eauto).
  unfold logf at 1.
  erewrite bind_returns by reflexivity.
  erewrite bind_returns by (eapply WriteAheadState_Reset_run; simpl; eauto).
  unfold logf at 1.
  erewrite bind_returns by reflexivity.
  erewrite bind_returns by (eapply TxPool_Reset_run; simpl; eauto).
  unfold_monad. simpl. eexists. split; [reflexivity|]. simpl.
  rewrite <- !app_assoc. auto.
Qed.

(** [Commit] when every step succeeds. *)
Lemma Commit_all_ok `{B : Backend} (σ : World) w root w1 e1 l v v' w2 e3 p p' e4 :
  was (self σ) = Some w →
  was_Commit w (env σ) = (root, None, w1, e1) →
  ethState (self σ) = Some l →
  heap e1 !! l = Some v →
  sdb_Reset root (db e1) v = Ok v' →
  was_Reset root w1 (set_heap (<[l := v']> (heap e1)) e1) = (None, w2, e3) →
  txPool (self σ) = Some p →
  pool_Reset root p e3 = (None, p', e4) →
  ∃ σ', Commit σ = Returns (root, None) σ'
        ∧ calls σ' = calls σ ++ [WasCommit; EthStateReset root; WasReset root;
                                 PoolReset root]
        ∧ env σ' = e4
        ∧ self σ' = {| ethState := Some l; was := Some w2; txPool := Some p';
                       config := config (self σ) |}.
Proof.
  intros Hw Hc Hl Hv Hr Hwr Hp Hpr. unfold Commit.
  erewrite bind_returns by (eapply WriteAheadState_Commit_run; eauto).
  simpl.
  erewrite bind_returns by (eapply ethState_Reset_ok; simpl; eauto).
  unfold logf at 1.
  erewrite bind_returns by reflexivity.
  erewrite bind_returns by (eapply WriteAheadState_Reset_run; simpl; eauto).
  unfold logf at 1.
  erewrite bind_returns by reflexivity.
  erewrite bind_returns by (eapply TxPool_Reset_run; simpl; eauto).
  unfold_monad. simpl. eexists. split; [reflexivity|]. simpl.
  rewrite <- !app_assoc. unfold set_txPool, set_was. world_simpl.
  rewrite Hl. auto.
Qed.

(** ** InitState *)

Lemma BytesToHash_nil : BytesToHash [] = zeroHash.
Proof. reflexivity. Qed.

(** The root [InitState] picks is [storedRoot]: a failed read and an empty
    value both give the zero hash. *)
Lemma InitState_root (r : result bytes) :
  let data := match r with Ok d => d | Err _ => [] end in
  (if bool_decide (length data ≠ 0%nat) then BytesToHash data else zeroHash)
  = match r with Ok data => BytesToHash data | Err _ => zeroHash end.
Proof.
  destruct r as [[|b data]|e]; simpl; try reflexivity.
Qed.

(** [InitState], case by case on what the collaborators answer. *)
Lemma InitState_run `{B : Backend} (σ : World) :
  let d := db (env σ) in
  let root := storedRoot d in
  let cfg := config (self σ) in
  match sdb_New root d with
  | Err e =>
    ∃ σ', InitState σ = Returns (Some e) σ'
          ∧ calls σ' = calls σ ++ [DbGet rootKey; EthStateNew root]
  | Ok v =>
    let l := fresh (dom (heap (env σ))) in
    match was_New root cfg gasLimit (set_heap (<[l := v]> (heap (env σ))) (env σ)) with
    | (Err e, e1) =>
      ∃ σ', InitState σ = Returns (Some e) σ'
            ∧ calls σ' = calls σ ++ [DbGet rootKey; EthStateNew root; NewWAS root]
    | (Ok w, e1) =>
      match heap e1 !! l with
      | None => InitState σ = Panics nilDeref
      | Some v1 =>
        let cp := fresh (dom (heap e1)) in
        ∃ σ', InitState σ = Returns None σ'
              ∧ calls σ' = calls σ ++ [DbGet rootKey; EthStateNew root; NewWAS root;
                                       NewPool cp]
              ∧ self σ' = {| ethState := Some l; was := Some w;
                             txPool := Some (pool_New cp cfg gasLimit
                                 (set_heap (<[cp := sdb_Copy v1]> (heap e1)) e1)).1;
                             config := cfg |}
              ∧ env σ' = (pool_New cp cfg gasLimit
                            (set_heap (<[cp := sdb_Copy v1]> (heap e1)) e1)).2
      end
    end
  end.
Proof.
  cbv zeta. unfold storedRoot, InitState. mred.
  destruct (db (env σ) rootKey) as [[|b data]|e] eqn:Hget;
    [change (BytesToHash []) with zeroHash | | ];
    (case_bool_decide as Hlen; [try (simpl in Hlen; congruence) | try (simpl in Hlen; lia)]);
    mred.
  all: match goal with |- context [sdb_New ?r ?d] =>
         destruct (sdb_New r d) as [v|err] eqn:Hnew end; mred;
    [ | eexists; split; [reflexivity|]; world_simpl; rewrite <- app_assoc; reflexivity ].
  all: match goal with |- context [was_New ?r ?c ?g ?e] =>
         destruct (was_New r c g e) as [[w|err] e1] eqn:Hwas end; mred;
    [ | eexists; split; [reflexivity|]; world_simpl; rewrite <- !app_assoc; reflexivity ].
  all: destruct (heap e1 !! _) as [v1|] eqn:Hl; mred; [|reflexivity].
  all: match goal with |- context [pool_New ?c ?f ?g ?e] =>
         destruct (pool_New c f g e) as [p e2] eqn:Hpool end; mred.
  all: eexists; split; [reflexivity|]; world_simpl; rewrite <- !app_assoc;
    unfold set_txPool, set_was, set_ethState; world_simpl; auto.
Qed.

(** ** Commit *)

(** C1, as amended.  [Commit] first calls [s.was.Commit()].  If that fails,
    its error is returned with the root it returned, and no reset is
    called.  If it succeeds with [root], the committed [ethState] is reset
    to [root]; the WAS is reset to [root] only when that reset succeeded,
    and the pool only when the reset of the WAS succeeded too.  A reset
    that fails ends [Commit]: its error is returned with [root], and the
    resets after it are not called.  When all three succeed, [Commit]
    returns [root] and no error, and the calls made are exactly these
    four, in this order. *)
Theorem Commit_sequence `{B : Backend} (σ : World) w root err w1 e1 :
  was (self σ) = Some w →
  was_Commit w (env σ) = (root, err, w1, e1) →
  match err with
  | Some e =>
    ∃ σ', Commit σ = Returns (root, Some e) σ'
          ∧ calls σ' = calls σ ++ [WasCommit]
          ∧ env σ' = e1
          ∧ ethState (self σ') = ethState (self σ)
          ∧ txPool (self σ') = txPool (self σ)
  | None =>
    ∀ l v,
      ethState (self σ) = Some l →
      heap e1 !! l = Some v →
      (∀ e, sdb_Reset root (db e1) v = Err e →
         ∃ σ', Commit σ = Returns (root, Some e) σ'
               ∧ calls σ' = calls σ ++ [WasCommit; EthStateReset root]
               ∧ env σ' = e1)
      ∧ (∀ v' e w2 e3,
           sdb_Reset root (db e1) v = Ok v' →
           was_Reset root w1 (set_heap (<[l := v']> (heap e1)) e1) = (Some e, w2, e3) →
           ∃ σ', Commit σ = Returns (root, Some e) σ'
                 ∧ calls σ' = calls σ ++ [WasCommit; EthStateReset root; WasReset root]
                 ∧ env σ' = e3)
      ∧ (∀ v' w2 e3 p e p' e4,
           sdb_Reset root (db e1) v = Ok v' →
           was_Reset root w1 (set_heap (<[l := v']> (heap e1)) e1) = (None, w2, e3) →
           txPool (self σ) = Some p →
           pool_Reset root p e3 = (Some e, p', e4) →
           ∃ σ', Commit σ = Returns (root, Some e) σ'
                 ∧ calls σ' = calls σ ++ [WasCommit; EthStateReset root;
                                          WasReset root; PoolReset root]
                 ∧ env σ' = e4)
      ∧ (∀ v' w2 e3 p p' e4,
           sdb_Reset root (db e1) v = Ok v' →
           was_Reset root w1 (set_heap (<[l := v']> (heap e1)) e1) = (None, w2, e3) →
           txPool (self σ) = Some p →
           pool_Reset root p e3 = (None, p', e4) →
           ∃ σ', Commit σ = Returns (root, None) σ'
                 ∧ calls σ' = calls σ ++ [WasCommit; EthStateReset root;
                                          WasReset root; PoolReset root]
                 ∧ env σ' = e4
                 ∧ self σ' = {| ethState := Some l; was := Some w2;
                                txPool := Some p'; config := config (self σ) |})
  end.
Proof.
  intros Hw Hc. destruct err as [e|].
  - eapply Commit_was_Commit_err; eauto.
  - intros l v Hl Hv. split; [|split; [|split]].
    + intros. eapply Commit_ethState_Reset_err; eauto.
    + intros. eapply Commit_was_Reset_err; eauto.
    + intros. eapply Commit_pool_Reset_err; eauto.
    + intros. eapply Commit_all_ok; eauto.
Qed.

(** The genesis accounts are committed on a store that keeps them. *)
Lemma Commit_sequence_witness :
  ∃ w root w1 e1 σ',
    was (self (seeded solid)) = Some w
    ∧ was_Commit (Backend := solid) w (env (seeded solid)) = (root, None, w1, e1)
    ∧ Commit (seeded solid) = Returns (root, None) σ'
    ∧ calls σ' = calls (seeded solid) ++ [WasCommit; EthStateReset root;
                                          WasReset root; PoolReset root].
Proof.
  assert (Hw : was (self (seeded solid)) = Some (2%positive, [])) by run.
  eassert (Hc : was_Commit (Backend := solid) (2%positive, [])
                  (env (seeded solid)) = (_, None, _, _)) by run.
  pose proof (Commit_sequence (B := solid) (seeded solid) _ _ _ _ _ Hw Hc) as H.
  cbv beta iota in H.
  edestruct H as (_ & _ & _ & Hok); [run .. |].
  edestruct Hok as (σ' & H1 & H2 & _); [run .. |].
  eexists _, _, _, _, σ'. split; [exact Hw|]. split; [exact Hc|].
  split; [exact H1 | exact H2].
Defined.

(** C1, as stated, fails where a reset fails.  On a store that loses the
    ledger, [s.was.Commit()] succeeds with a root, [s.ethState.Reset(root)]
    then fails; [Commit] returns that error, and neither the WAS nor the
    pool is reset. *)
Lemma Commit_sequence_counterexample :
  ∃ w root w1 e1,
    was (self (seeded lossy)) = Some w
    ∧ was_Commit (Backend := lossy) w (env (seeded lossy)) = (root, None, w1, e1)
    ∧ returned (Commit (seeded lossy)) = Some (root, Some "missing trie node")
    ∧ calls (world_after (seeded lossy) (Commit (seeded lossy)))
      = calls (seeded lossy) ++ [WasCommit; EthStateReset root].
Proof.
  eexists (2%positive, []), _, _, _. repeat split; run.
Qed.

(** C3, as amended.  There is no retry in [Commit]: when a reset fails
    after [s.was.Commit()] succeeded with [root], [Commit] returns [root]
    with the error of that reset; the failing reset has been called once,
    and the resets after it are not called. *)
Theorem Commit_returns_reset_error `{B : Backend} (σ : World) w root w1 e1 l v :
  was (self σ) = Some w →
  was_Commit w (env σ) = (root, None, w1, e1) →
  ethState (self σ) = Some l →
  heap e1 !! l = Some v →
  (∀ e, sdb_Reset root (db e1) v = Err e →
     ∃ σ', Commit σ = Returns (root, Some e) σ'
           ∧ calls σ' = calls σ ++ [WasCommit; EthStateReset root]
           ∧ env σ' = e1)
  ∧ (∀ v' e w2 e3,
       sdb_Reset root (db e1) v = Ok v' →
       was_Reset root w1 (set_heap (<[l := v']> (heap e1)) e1) = (Some e, w2, e3) →
       ∃ σ', Commit σ = Returns (root, Some e) σ'
             ∧ calls σ' = calls σ ++ [WasCommit; EthStateReset root; WasReset root]
             ∧ env σ' = e3)
  ∧ (∀ v' w2 e3 p e p' e4,
       sdb_Reset root (db e1) v = Ok v' →
       was_Reset root w1 (set_heap (<[l := v']> (heap e1)) e1) = (None, w2, e3) →
       txPool (self σ) = Some p →
       pool_Reset root p e3 = (Some e, p', e4) →
       ∃ σ', Commit σ = Returns (root, Some e) σ'
             ∧ calls σ' = calls σ ++ [WasCommit; EthStateReset root; WasReset root;
                                      PoolReset root]
             ∧ env σ' = e4).
Proof.
  intros Hw Hc Hl Hv. repeat split.
  - intros. eapply Commit_ethState_Reset_err; eauto.
  - intros. eapply Commit_was_Reset_err; eauto.
  - intros. eapply Commit_pool_Reset_err; eauto.
Qed.

(** The store loses the genesis ledger: the reset of [s.ethState] fails. *)
Lemma Commit_returns_reset_error_witness :
  ∃ root w1 e1 σ',
    was_Commit (Backend := lossy) (2%positive, []) (env (seeded lossy))
    = (root, None, w1, e1)
    ∧ sdb_Reset (Backend := lossy) root (db e1) [] = Err "missing trie node"
    ∧ Commit (seeded lossy) = Returns (root, Some "missing trie node") σ'
    ∧ calls σ' = calls (seeded lossy) ++ [WasCommit; EthStateReset root].
Proof.
  assert (Hw : was (self (seeded lossy)) = Some (2%positive, [])) by run.
  eassert (Hc : was_Commit (Backend := lossy) (2%positive, [])
                  (env (seeded lossy)) = (_, None, _, _)) by run.
  assert (Hl : ethState (self (seeded lossy)) = Some 1%positive) by run.
  match type of Hc with
  | _ = (?r, _, _, ?e1) =>
    assert (Hv : heap e1 !! 1%positive = Some []) by run;
    assert (Hr : sdb_Reset (Backend := lossy) r (db e1) [] = Err "missing trie node")
      by run
  end.
  destruct (proj1 (Commit_returns_reset_error (B := lossy) (seeded lossy)
                     _ _ _ _ _ _ Hw Hc Hl Hv) _ Hr) as (σ' & H1 & H2 & _).
  eexists _, _, _, σ'. split; [exact Hc|]. split; [exact Hr|].
  split; [exact H1 | exact H2].
Defined.

(** C3, as stated, fails.  On the store that loses the ledger, the root
    pointer of the store has advanced to the new root, the reset of
    [s.ethState] to that root fails, and [Commit] returns with that error:
    the reset was called once, and nothing was called after it. *)
Lemma Commit_does_not_retry :
  ∃ root,
    db (env (world_after (seeded lossy) (Commit (seeded lossy)))) rootKey = Ok root
    ∧ returned (Commit (seeded lossy)) = Some (root, Some "missing trie node")
    ∧ calls (world_after (seeded lossy) (Commit (seeded lossy)))
      = calls (seeded lossy) ++ [WasCommit; EthStateReset root].
Proof.
  eexists. repeat split; run.
Qed.

(** ** Call *)

Lemma fresh_heap `{B : Backend} (h : gmap loc StateDBv) : h !! fresh (dom h) = None.
Proof. apply not_elem_of_dom, is_fresh. Qed.

(** What [Call] does, step by step: the object of the WAS is copied into a
    fresh object, the message runs on that copy, and the copy keeps what
    the run did to it. *)
Lemma Call_run `{B : Backend} (callMsg : Message) (σ : World) w v :
  was (self σ) = Some w →
  heap (env σ) !! was_ethState w = Some v →
  let context := {| Origin := msg_from callMsg; GasPrice := msg_gasPrice callMsg |} in
  let ran := core_ApplyMessage context (config (self σ)) callMsg gasLimit (sdb_Copy v) in
  let cp := fresh (dom (heap (env σ))) in
  ∃ σ', Call callMsg σ = Returns (Call_answer ran.2) σ'
        ∧ self σ' = self σ
        ∧ calls σ' = calls σ
        ∧ db (env σ') = db (env σ)
        ∧ heap (env σ') = <[cp := ran.1]> (<[cp := sdb_Copy v]> (heap (env σ))).
Proof.
  intros Hw Hv context ran cp. unfold Call. mred.
  rewrite Hw. mred. rewrite Hv. mred.
  rewrite lookup_insert_eq. mred.
  fold context. fold cp. 
  destruct (core_ApplyMessage context (config (self σ)) callMsg gasLimit (sdb_Copy v))
    as [v' [res [e|]]] eqn:Hrun; subst ran; rewrite ?Hrun; mred;
    eexists; (split; [reflexivity|]); world_simpl; auto.
Qed.

(** C4, as amended.  [Call] executes the message against a private copy of
    the object the write-ahead state works on ([s.was.ethState]), and
    returns what that execution returns; the committed [s.ethState] is not
    consulted. *)
Theorem Call_executes_on_WAS_copy `{B : Backend} (callMsg : Message) (σ : World) w v :
  was (self σ) = Some w →
  heap (env σ) !! was_ethState w = Some v →
  ∃ σ', Call callMsg σ =
        Returns (Call_answer
                   (core_ApplyMessage
                      {| Origin := msg_from callMsg; GasPrice := msg_gasPrice callMsg |}
                      (config (self σ)) callMsg gasLimit (sdb_Copy v)).2) σ'.
Proof.
  intros Hw Hv. destruct (Call_run callMsg σ w v Hw Hv) as (σ' & H & _).
  eauto.
Qed.

(** With the genesis accounts in the write-ahead state only, a transfer
    from alice runs on the copy of that state. *)
Lemma Call_executes_on_WAS_copy_witness :
  ∃ v σ',
    was (self (seeded solid)) = Some (2%positive, [])
    ∧ heap (env (seeded solid)) !! 2%positive = Some v
    ∧ Call transfer10 (seeded solid) =
      Returns (Call_answer
                 (core_ApplyMessage (Backend := solid)
                    {| Origin := msg_from transfer10; GasPrice := 0 |}
                    Ref.cfg0 transfer10 gasLimit v).2) σ'.
Proof.
  assert (Hw : was (self (seeded solid)) = Some (2%positive, [])) by run.
  eassert (Hv : heap (env (seeded solid)) !! 2%positive = Some _) by run.
  destruct (Call_executes_on_WAS_copy (B := solid) transfer10 (seeded solid)
              (2%positive, []) _ Hw Hv) as (σ' & H).
  eexists _, σ'. split; [exact Hw|]. split; [exact Hv | exact H].
Defined.

(** C4, as stated, fails.  The genesis accounts are in the write-ahead
    state and not yet committed: alice has nothing in the committed state,
    where her transfer of 10 fails, and [Call] answers that it succeeds. *)
Lemma Call_not_on_committed_state :
  ∃ l committed,
    ethState (self (seeded solid)) = Some l
    ∧ heap (env (seeded solid)) !! l = Some committed
    ∧ Call_answer
        (core_ApplyMessage (Backend := solid)
           {| Origin := msg_from transfer10; GasPrice := msg_gasPrice transfer10 |}
           Ref.cfg0 transfer10 gasLimit (sdb_Copy (Backend := solid) committed)).2
      = ([], Some "insufficient balance for transfer")
    ∧ returned (Call transfer10 (seeded solid)) = Some ([], None).
Proof.
  eexists _, _. repeat split; run.
Qed.

(** C5.  [Call] works on a private copy: it leaves the coordinator's
    fields, the durable store and every existing ledger object as they
    were, so [GetBalance], [GetNonce] and [GetPoolNonce] answer after the
    call what they answered before it, for every address, and the object
    of the write-ahead state holds what it held. *)
Theorem Call_leaves_states_unchanged `{B : Backend} (callMsg : Message)
    (σ : World) w v :
  was (self σ) = Some w →
  heap (env σ) !! was_ethState w = Some v →
  ∃ out σ',
    Call callMsg σ = Returns out σ'
    ∧ self σ' = self σ
    ∧ db (env σ') = db (env σ)
    ∧ (∀ l x, heap (env σ) !! l = Some x → heap (env σ') !! l = Some x)
    ∧ heap (env σ') !! was_ethState w = Some v
    ∧ (∀ addr b, GetBalance addr σ = Returns b σ → GetBalance addr σ' = Returns b σ')
    ∧ (∀ addr n, GetNonce addr σ = Returns n σ → GetNonce addr σ' = Returns n σ')
    ∧ (∀ addr n, GetPoolNonce addr σ = Returns n σ →
                 GetPoolNonce addr σ' = Returns n σ').
Proof.
  intros Hw Hv.
  destruct (Call_run callMsg σ w v Hw Hv) as (σ' & Hcall & Hself & _ & Hdb & Hheap).
  assert (Hframe : ∀ l x, heap (env σ) !! l = Some x → heap (env σ') !! l = Some x).
  { intros l x Hl. rewrite Hheap.
    assert (l ≠ fresh (dom (heap (env σ)))) as Hne.
    { intros ->. rewrite fresh_heap in Hl. discriminate. }
    rewrite !lookup_insert_ne by auto. exact Hl. }
  eexists _, σ'. split; [exact Hcall|].
  split; [exact Hself|]. split; [exact Hdb|]. split; [exact Hframe|].
  split; [auto|].
  repeat split.
  - intros addr b. unfold GetBalance. mred. rewrite Hself.
    destruct (ethState (self σ)) as [l|]; mred; [|discriminate].
    destruct (heap (env σ) !! l) as [x|] eqn:Hl; mred; [|discriminate].
    rewrite (Hframe _ _ Hl). intros [= <-]. reflexivity.
  - intros addr n. unfold GetNonce. mred. rewrite Hself.
    destruct (ethState (self σ)) as [l|]; mred; [|discriminate].
    destruct (heap (env σ) !! l) as [x|] eqn:Hl; mred; [|discriminate].
    rewrite (Hframe _ _ Hl). intros [= <-]. reflexivity.
  - intros addr n. unfold GetPoolNonce. mred. rewrite Hself.
    destruct (txPool (self σ)) as [p|]; mred; [|discriminate].
    destruct (heap (env σ) !! pool_ethState p) as [x|] eqn:Hl; mred; [|discriminate].
    rewrite (Hframe _ _ Hl). intros [= <-]. reflexivity.
Qed.

(** After the genesis batch is committed, a transfer from alice is
    simulated: she still holds 100 and her nonces are still 0. *)
Lemma Call_leaves_states_unchanged_witness :
  let σ := world_after (seeded solid) (Commit (seeded solid)) in
  ∃ out σ',
    Call transfer10 σ = Returns out σ'
    ∧ GetBalance (msg_from transfer10) σ = Returns 100 σ
    ∧ GetBalance (msg_from transfer10) σ' = Returns 100 σ'
    ∧ GetNonce (msg_from transfer10) σ' = Returns 0 σ'
    ∧ GetPoolNonce (msg_from transfer10) σ' = Returns 0 σ'.
Proof.
  intros σ.
  assert (Hw : was (self σ) = Some (2%positive, [])) by run.
  eassert (Hv : heap (env σ) !! 2%positive = Some _) by run.
  destruct (Call_leaves_states_unchanged (B := solid) transfer10 σ
              (2%positive, []) _ Hw Hv)
    as (out & σ' & Hcall & _ & _ & _ & _ & Hb & Hn & Hp).
  assert (Gb : GetBalance (msg_from transfer10) σ = Returns 100 σ) by run.
  exists out, σ'. split; [exact Hcall|]. split; [exact Gb|].
  split; [apply Hb; exact Gb|]. split; [apply Hn | apply Hp]; run.
Defined.

(** ** ApplyTransaction *)

(** C6.  When the bytes do not decode, [ApplyTransaction] returns the
    decoding error and calls nothing: the coordinator's fields, the store
    and the ledger objects are as before.  When they decode to [t], the
    WAS is called once, with [t], the given index and the given block hash,
    and its answer is returned. *)
Theorem ApplyTransaction_decodes_and_forwards `{B : Backend} (txBytes : bytes)
    (txIndex : Z) (blockHash : Hash) (σ : World) :
  (∀ e, rlp_Decode txBytes = Err e →
     ∃ σ', ApplyTransaction txBytes txIndex blockHash σ = Returns (Some e) σ'
           ∧ self σ' = self σ ∧ env σ' = env σ ∧ calls σ' = calls σ)
  ∧ (∀ t w, rlp_Decode txBytes = Ok t → was (self σ) = Some w →
       ∃ σ', ApplyTransaction txBytes txIndex blockHash σ
             = Returns (was_ApplyTransaction t txIndex blockHash w (env σ)).1.1 σ'
             ∧ calls σ' = calls σ ++ [WasApplyTransaction t txIndex blockHash]
             ∧ was (self σ') = Some (was_ApplyTransaction t txIndex blockHash w (env σ)).1.2
             ∧ env σ' = (was_ApplyTransaction t txIndex blockHash w (env σ)).2).
Proof.
  split.
  - intros e He. unfold ApplyTransaction. rewrite He. mred.
    eexists. split; [reflexivity|]. world_simpl. auto.
  - intros t w Ht Hw. unfold ApplyTransaction. rewrite Ht. mred.
    rewrite Hw. mred.
    destruct (was_ApplyTransaction t txIndex blockHash w (env σ)) as [[r w'] e'].
    mred. eexists. split; [reflexivity|]. world_simpl. auto.
Qed.

(** The empty byte sequence is no transaction; the encoding of the transfer
    of 30 is forwarded to the write-ahead state. *)
Lemma ApplyTransaction_decodes_and_forwards_witness :
  let σ := world_after (seeded solid) (Commit (seeded solid)) in
  (∃ σ', rlp_Decode (Backend := solid) [] = Err "rlp: value does not decode"
         ∧ ApplyTransaction [] 0 zeroHash σ
           = Returns (Some "rlp: value does not decode") σ'
         ∧ calls σ' = calls σ)
  ∧ (∃ σ', rlp_Decode (Backend := solid) (Ref.marshal tx30) = Ok tx30
           ∧ ApplyTransaction (Ref.marshal tx30) 0 zeroHash σ = Returns None σ'
           ∧ calls σ' = calls σ ++ [WasApplyTransaction (T := Ref.Tx) tx30 0 zeroHash]).
Proof.
  intros σ. split.
  - assert (He : rlp_Decode (Backend := solid) [] = Err "rlp: value does not decode")
      by run.
    destruct (proj1 (ApplyTransaction_decodes_and_forwards (B := solid)
                       [] 0 zeroHash σ) _ He) as (σ' & H & _ & _ & Hc).
    exists σ'. auto.
  - assert (Ht : rlp_Decode (Backend := solid) (Ref.marshal tx30) = Ok tx30)
      by run.
    assert (Hw : was (self σ) = Some (2%positive, [])) by run.
    destruct (proj2 (ApplyTransaction_decodes_and_forwards (B := solid)
                       (Ref.marshal tx30) 0 zeroHash σ) tx30 (2%positive, []) Ht Hw)
      as (σ' & H & Hc & _).
    assert (Hr : (was_ApplyTransaction (Backend := solid) tx30 0 zeroHash
                    (2%positive, []) (env σ)).1.1 = None) by run.
    rewrite Hr in H. exists σ'. auto.
Defined.

(** ** Lookups in the durable store *)

Lemma GetTransaction_run `{B : Backend} (hash : Hash) (σ : World) :
  ∃ σ', GetTransaction hash σ
        = Returns (lookup_answer (db (env σ) hash) rlp_DecodeBytes_tx) σ'
        ∧ calls σ' = calls σ ++ [DbGet hash]
        ∧ self σ' = self σ ∧ env σ' = env σ.
Proof.
  unfold GetTransaction, Hash_Bytes, lookup_answer. mred.
  destruct (db (env σ) hash) as [data|e]; mred.
  - destruct (rlp_DecodeBytes_tx data); mred; eexists; (split; [reflexivity|]);
      world_simpl; auto.
  - eexists; (split; [reflexivity|]); world_simpl; auto.
Qed.

Lemma GetReceipt_run `{B : Backend} (txHash : Hash) (σ : World) :
  ∃ σ', GetReceipt txHash σ
        = Returns (lookup_answer (db (env σ) (receiptsPrefix ++ txHash))
                     rlp_DecodeBytes_receipt) σ'
        ∧ calls σ' = calls σ ++ [DbGet (receiptsPrefix ++ txHash)]
        ∧ self σ' = self σ ∧ env σ' = env σ.
Proof.
  unfold GetReceipt, Hash_Bytes, lookup_answer. mred.
  destruct (db (env σ) (receiptsPrefix ++ txHash)) as [data|e]; mred.
  - destruct (rlp_DecodeBytes_receipt data); mred; eexists; (split; [reflexivity|]);
      world_simpl; auto.
  - eexists; (split; [reflexivity|]); world_simpl; auto.
Qed.

Lemma lookup_answer_error {A} (got : result bytes) (decode : bytes → result A) :
  (lookup_answer got decode).2 ≠ None
  ↔ is_Err got = true ∨ ∃ data, got = Ok data ∧ is_Err (decode data) = true.
Proof.
  unfold lookup_answer. destruct got as [data|e]; simpl.
  - destruct (decode data) eqn:Hd; simpl; split.
    + intros H. now contradict H.
    + intros [H|(d & [= <-] & H)]; [discriminate|]. rewrite Hd in H. discriminate.
    + intros _. right. exists data. rewrite Hd. auto.
    + discriminate.
  - split; [auto | discriminate].
Qed.

Lemma lookup_answer_value {A} (got : result bytes) (decode : bytes → result A)
    data a :
  got = Ok data → decode data = Ok a → lookup_answer got decode = (Some a, None).
Proof. intros -> H. unfold lookup_answer. now rewrite H. Qed.

(** C8, as amended.  [GetTransaction] reads the store at the key [hash],
    [GetReceipt] at the key [receiptsPrefix ++ txHash], each with one
    [Get].  Each returns an error exactly when that [Get] reports an
    error, be it that the key is absent or that the read failed for
    another reason, or when the bytes it gives do not decode; otherwise it
    returns what the bytes decode to, and no error. *)
Theorem lookups_read_their_key `{B : Backend} (hash : Hash) (σ : World) :
  (∃ out σ',
     GetTransaction hash σ = Returns out σ'
     ∧ calls σ' = calls σ ++ [DbGet hash]
     ∧ (out.2 ≠ None ↔
        is_Err (db (env σ) hash) = true
        ∨ ∃ data, db (env σ) hash = Ok data ∧ is_Err (rlp_DecodeBytes_tx data) = true)
     ∧ (∀ data tx, db (env σ) hash = Ok data → rlp_DecodeBytes_tx data = Ok tx →
                   out = (Some tx, None)))
  ∧ (∃ out σ',
       GetReceipt hash σ = Returns out σ'
       ∧ calls σ' = calls σ ++ [DbGet (receiptsPrefix ++ hash)]
       ∧ (out.2 ≠ None ↔
          is_Err (db (env σ) (receiptsPrefix ++ hash)) = true
          ∨ ∃ data, db (env σ) (receiptsPrefix ++ hash) = Ok data
                    ∧ is_Err (rlp_DecodeBytes_receipt data) = true)
       ∧ (∀ data receipt, db (env σ) (receiptsPrefix ++ hash) = Ok data →
                          rlp_DecodeBytes_receipt data = Ok receipt →
                          out = (Some receipt, None))).
Proof.
  split.
  - destruct (GetTransaction_run hash σ) as (σ' & H & Hc & _).
    eexists _, σ'. split; [exact H|]. split; [exact Hc|]. split.
    + apply lookup_answer_error.
    + intros. eapply lookup_answer_value; eauto.
  - destruct (GetReceipt_run hash σ) as (σ' & H & Hc & _).
    eexists _, σ'. split; [exact H|]. split; [exact Hc|]. split.
    + apply lookup_answer_error.
    + intros. eapply lookup_answer_value; eauto.
Qed.

(** The committed transfer of 30 and its receipt are found under its hash. *)
Lemma lookups_read_their_key_witness :
  returned (GetTransaction (B := solid) (Ref.txDigest tx30) settled)
  = Some (Some tx30, None)
  ∧ returned (GetReceipt (B := solid) (Ref.txDigest tx30) settled)
    = Some (Some (1, 0), None).
Proof.
  destruct (lookups_read_their_key (B := solid) (Ref.txDigest tx30) settled)
    as [(o1 & σ1 & H1 & _ & _ & V1) (o2 & σ2 & H2 & _ & _ & V2)].
  split.
  - rewrite H1. simpl. f_equal. eapply V1; run.
  - rewrite H2. simpl. f_equal. eapply V2; run.
Defined.

(** C8, as stated, fails where a read fails.  The store of [settled] holds
    the transfer of 30 under its hash and its receipt under the prefixed
    hash, and both decode; when the reads of these two keys fail,
    [GetTransaction] and [GetReceipt] return the error of the read, for
    keys that are present and bytes that are well formed. *)
Lemma lookup_fails_on_a_stored_key :
  let h := Ref.txDigest tx30 in
  let d := db (env settled) in
  (∃ data,
     d (Hash_Bytes h) = Ok data
     ∧ rlp_DecodeBytes_tx (Backend := solid) data = Ok tx30
     ∧ returned (GetTransaction (B := solid) h
                   (blank (Ref.unreadable (Hash_Bytes h) d)))
       = Some (None, Some "read: input/output error"))
  ∧ (∃ data receipt,
       d (receiptsPrefix ++ Hash_Bytes h) = Ok data
       ∧ rlp_DecodeBytes_receipt (Backend := solid) data = Ok receipt
       ∧ returned (GetReceipt (B := solid) h
                     (blank (Ref.unreadable (receiptsPrefix ++ Hash_Bytes h) d)))
         = Some (None, Some "read: input/output error")).
Proof.
  intros h d. split.
  - eexists. split; [run|]. split; run.
  - eexists _, _. split; [run|]. split; run.
Qed.

(** ** Errors of the store and of the collaborators *)

(** C7, as amended.  [Commit] returns the error of [s.was.Commit()] and of
    each reset; [InitState] returns the error of creating the [ethState]
    and of creating the WAS; [NewState] returns the error of the
    descriptor limit, of opening the store and of [InitState];
    [GetTransaction] and [GetReceipt] return the error of the store's
    [Get].  The error of the [Get] of the root key in [InitState] is the
    exception: it is dropped, [InitState] goes on from the zero hash, and
    returns no error when the [ethState] and the WAS can be created from
    it. *)
Theorem failures_reach_the_caller `{B : Backend} (σ : World) :
  (∀ w root e w1 e1,
     was (self σ) = Some w →
     was_Commit w (env σ) = (root, Some e, w1, e1) →
     returned (Commit σ) = Some (root, Some e))
  ∧ (∀ w root w1 e1 l v e,
       was (self σ) = Some w →
       was_Commit w (env σ) = (root, None, w1, e1) →
       ethState (self σ) = Some l →
       heap e1 !! l = Some v →
       sdb_Reset root (db e1) v = Err e →
       returned (Commit σ) = Some (root, Some e))
  ∧ (∀ w root w1 e1 l v v' e w2 e3,
       was (self σ) = Some w →
       was_Commit w (env σ) = (root, None, w1, e1) →
       ethState (self σ) = Some l →
       heap e1 !! l = Some v →
       sdb_Reset root (db e1) v = Ok v' →
       was_Reset root w1 (set_heap (<[l := v']> (heap e1)) e1) = (Some e, w2, e3) →
       returned (Commit σ) = Some (root, Some e))
  ∧ (∀ w root w1 e1 l v v' w2 e3 p e p' e4,
       was (self σ) = Some w →
       was_Commit w (env σ) = (root, None, w1, e1) →
       ethState (self σ) = Some l →
       heap e1 !! l = Some v →
       sdb_Reset root (db e1) v = Ok v' →
       was_Reset root w1 (set_heap (<[l := v']> (heap e1)) e1) = (None, w2, e3) →
       txPool (self σ) = Some p →
       pool_Reset root p e3 = (Some e, p', e4) →
       returned (Commit σ) = Some (root, Some e))
  ∧ (∀ e,
       sdb_New (storedRoot (db (env σ))) (db (env σ)) = Err e →
       returned (InitState σ) = Some (Some e))
  ∧ (∀ v e e1,
       sdb_New (storedRoot (db (env σ))) (db (env σ)) = Ok v →
       was_New (storedRoot (db (env σ))) (config (self σ)) gasLimit
         (set_heap (<[fresh (dom (heap (env σ))) := v]> (heap (env σ))) (env σ))
       = (Err e, e1) →
       returned (InitState σ) = Some (Some e))
  ∧ (∀ open dbFile dbCache e,
       NewState (Err e) open dbFile dbCache = Failed e)
  ∧ (∀ cur open dbFile dbCache e,
       open dbFile dbCache (int_of_uint64 cur) = Err e →
       NewState (Ok cur) open dbFile dbCache = Failed e)
  ∧ (∀ cur open dbFile dbCache d e σ',
       open dbFile dbCache (int_of_uint64 cur) = Ok d →
       InitState (blank d) = Returns (Some e) σ' →
       NewState (Ok cur) open dbFile dbCache = Failed e)
  ∧ (∀ hash e,
       db (env σ) hash = Err e →
       returned (GetTransaction hash σ) = Some (None, Some e))
  ∧ (∀ hash e,
       db (env σ) (receiptsPrefix ++ hash) = Err e →
       returned (GetReceipt hash σ) = Some (None, Some e))
  ∧ (∀ e v w e1 v1,
       db (env σ) rootKey = Err e →
       sdb_New zeroHash (db (env σ)) = Ok v →
       was_New zeroHash (config (self σ)) gasLimit
         (set_heap (<[fresh (dom (heap (env σ))) := v]> (heap (env σ))) (env σ))
       = (Ok w, e1) →
       heap e1 !! fresh (dom (heap (env σ))) = Some v1 →
       returned (InitState σ) = Some None).
Proof.
  repeat split.
  - intros * Hw Hc.
    destruct (Commit_was_Commit_err σ _ _ _ _ _ Hw Hc) as (σ' & -> & _). reflexivity.
  - intros * Hw Hc Hl Hv Hr.
    destruct (Commit_ethState_Reset_err σ _ _ _ _ _ _ _ Hw Hc Hl Hv Hr) as (σ' & -> & _).
    reflexivity.
  - intros * Hw Hc Hl Hv Hr Hwr.
    destruct (Commit_was_Reset_err σ _ _ _ _ _ _ _ _ _ _ Hw Hc Hl Hv Hr Hwr)
      as (σ' & -> & _).
    reflexivity.
  - intros * Hw Hc Hl Hv Hr Hwr Hp Hpr.
    destruct (Commit_pool_Reset_err σ _ _ _ _ _ _ _ _ _ _ _ _ _ Hw Hc Hl Hv Hr Hwr Hp Hpr)
      as (σ' & -> & _).
    reflexivity.
  - intros e Hnew. pose proof (InitState_run σ) as H. cbv zeta in H.
    rewrite Hnew in H. destruct H as (σ' & -> & _). reflexivity.
  - intros v e e1 Hnew Hwas. pose proof (InitState_run σ) as H. cbv zeta in H.
    rewrite Hnew, Hwas in H. destruct H as (σ' & -> & _). reflexivity.
  - intros * Hopen. unfold NewState. simpl. rewrite Hopen. reflexivity.
  - intros * Hopen Hinit. unfold NewState. simpl. rewrite Hopen, Hinit. reflexivity.
  - intros hash e Hget. destruct (GetTransaction_run hash σ) as (σ' & -> & _).
    rewrite Hget. reflexivity.
  - intros hash e Hget. destruct (GetReceipt_run hash σ) as (σ' & -> & _).
    rewrite Hget. reflexivity.
  - intros e v w e1 v1 Hget Hnew Hwas Hl.
    pose proof (InitState_run σ) as H. cbv zeta in H.
    unfold storedRoot in H. rewrite Hget in H.
    rewrite Hnew, Hwas, Hl in H. destruct H as (σ' & -> & _). reflexivity.
Qed.

(** On the store of [settled], no receipt is stored for the zero hash, and
    the read of the root key fails. *)
Lemma failures_reach_the_caller_witness :
  (db (env settled) (receiptsPrefix ++ zeroHash) = Err "leveldb: not found"
   ∧ returned (GetReceipt (B := solid) zeroHash settled)
     = Some (None, Some "leveldb: not found"))
  ∧ (db (env restarted_unreadable) rootKey = Err "read: input/output error"
     ∧ returned (InitState restarted_unreadable) = Some None).
Proof.
  split.
  - assert (H : db (env settled) (receiptsPrefix ++ zeroHash) = Err "leveldb: not found")
      by run.
    split; [exact H|].
    apply (failures_reach_the_caller (B := solid) settled). exact H.
  - assert (H : db (env restarted_unreadable) rootKey = Err "read: input/output error")
      by run.
    split; [exact H|].
    eapply (failures_reach_the_caller (B := solid) restarted_unreadable);
      [exact H | run ..].
Defined.

(** C7, as stated, fails in [InitState].  The store holds the committed
    ledger in which alice has 70, and its root; the read of the root key
    fails.  [InitState] returns no error, and the node has started from the
    empty ledger. *)
Lemma InitState_drops_read_error :
  db (env restarted_unreadable) rootKey = Err "read: input/output error"
  ∧ returned (GetBalance (B := solid) (msg_from transfer10) settled) = Some 70
  ∧ returned (InitState restarted_unreadable) = Some None
  ∧ returned (GetBalance (B := solid) (msg_from transfer10)
                (world_after restarted_unreadable (InitState restarted_unreadable)))
    = Some 0.
Proof.
  repeat split; run.
Qed.

(** ** One root for the three states *)

(** [Commit] on a coordinator without a pool panics at the last reset. *)
Lemma Commit_pool_nil `{B : Backend} (σ : World) w root w1 e1 l v v' w2 e3 :
  was (self σ) = Some w →
  was_Commit w (env σ) = (root, None, w1, e1) →
  ethState (self σ) = Some l →
  heap e1 !! l = Some v →
  sdb_Reset root (db e1) v = Ok v' →
  was_Reset root w1 (set_heap (<[l := v']> (heap e1)) e1) = (None, w2, e3) →
  txPool (self σ) = None →
  Commit σ = Panics nilDeref.
Proof.
  intros Hw Hc Hl Hv Hr Hwr Hp. unfold Commit.
  erewrite bind_returns by (eapply WriteAheadState_Commit_run; eauto).
  simpl.
  erewrite bind_returns by (eapply ethState_Reset_ok; simpl; eauto).
  unfold logf at 1.
  erewrite bind_returns by reflexivity.
  erewrite bind_returns by (eapply WriteAheadState_Reset_run; simpl; eauto).
  unfold logf at 1.
  erewrite bind_returns by reflexivity.
  erewrite bind_panics; [reflexivity|].
  unfold TxPool_Reset, after_ethState_Reset. mred. rewrite Hp. reflexivity.
Qed.

(** A successful [Commit], read backwards: every step succeeded. *)
Lemma Commit_ok_inv `{B : Backend} (σ σ' : World) (root : Hash) :
  Commit σ = Returns (root, None) σ' →
  ∃ w w1 e1 l v v' w2 e3 p p',
    was (self σ) = Some w
    ∧ was_Commit w (env σ) = (root, None, w1, e1)
    ∧ ethState (self σ) = Some l
    ∧ heap e1 !! l = Some v
    ∧ sdb_Reset root (db e1) v = Ok v'
    ∧ was_Reset root w1 (set_heap (<[l := v']> (heap e1)) e1) = (None, w2, e3)
    ∧ txPool (self σ) = Some p
    ∧ pool_Reset root p e3 = (None, p', env σ')
    ∧ self σ' = {| ethState := Some l; was := Some w2; txPool := Some p';
                   config := config (self σ) |}
    ∧ calls σ' = calls σ ++ [WasCommit; EthStateReset root; WasReset root;
                             PoolReset root].
Proof.
  intros H.
  destruct (was (self σ)) as [w|] eqn:Hw;
    [| unfold Commit in H; mred; rewrite Hw in H; discriminate].
  destruct (was_Commit w (env σ)) as [[[root' [e|]] w1] e1] eqn:Hc.
  { destruct (Commit_was_Commit_err σ _ _ _ _ _ Hw Hc) as (σ'' & H' & _).
    rewrite H' in H. discriminate. }
  destruct (ethState (self σ)) as [l|] eqn:Hl;
    [| unfold Commit in H; mred; rewrite Hw in H; mred; rewrite Hc in H; mred;
       rewrite Hl in H; discriminate].
  destruct (heap e1 !! l) as [v|] eqn:Hv;
    [| unfold Commit in H; mred; rewrite Hw in H; mred; rewrite Hc in H; mred;
       rewrite Hl in H; mred; rewrite Hv in H; discriminate].
  destruct (sdb_Reset root' (db e1) v) as [v'|e] eqn:Hr.
  2:{ destruct (Commit_ethState_Reset_err σ _ _ _ _ _ _ _ Hw Hc Hl Hv Hr) as (σ'' & H' & _).
      rewrite H' in H. discriminate. }
  destruct (was_Reset root' w1 (set_heap (<[l := v']> (heap e1)) e1))
    as [[[e|] w2] e3] eqn:Hwr.
  { destruct (Commit_was_Reset_err σ _ _ _ _ _ _ _ _ _ _ Hw Hc Hl Hv Hr Hwr)
      as (σ'' & H' & _).
    rewrite H' in H. discriminate. }
  destruct (txPool (self σ)) as [p|] eqn:Hp.
  2:{ rewrite (Commit_pool_nil σ _ _ _ _ _ _ _ _ _ Hw Hc Hl Hv Hr Hwr Hp) in H.
      discriminate. }
  destruct (pool_Reset root' p e3) as [[[e|] p'] e4] eqn:Hpr.
  { destruct (Commit_pool_Reset_err σ _ _ _ _ _ _ _ _ _ _ _ _ _ Hw Hc Hl Hv Hr Hwr Hp Hpr)
      as (σ'' & H' & _).
    rewrite H' in H. discriminate. }
  destruct (Commit_all_ok σ _ _ _ _ _ _ _ _ _ _ _ _ Hw Hc Hl Hv Hr Hwr Hp Hpr)
    as (σ'' & H' & Hcalls & Henv & Hself).
  rewrite H' in H. injection H as -> ->.
  exists w, w1, e1, l, v, v', w2, e3, p, p'. rewrite Henv. auto 12.
Qed.

(** C2, as amended.  After a successful [InitState], the committed
    [ethState] and the WAS have been created from one root, and the pool
    has been created on a fresh copy of that [ethState].  That root is the
    hash of the bytes the read of the root key gives when the read
    succeeds, and the zero hash when the read reports an error, whether
    the key is absent or the read failed for another reason.  After a
    successful [Commit], the [ethState], the WAS and the pool have each
    been reset to the root [s.was.Commit()] returned. *)
Theorem one_root_for_all_three `{B : Backend} (σ σ' : World) :
  (InitState σ = Returns None σ' →
   let root := storedRoot (db (env σ)) in
   let l := fresh (dom (heap (env σ))) in
   ∃ v w e1 v1,
     sdb_New root (db (env σ)) = Ok v
     ∧ was_New root (config (self σ)) gasLimit
         (set_heap (<[l := v]> (heap (env σ))) (env σ)) = (Ok w, e1)
     ∧ heap e1 !! l = Some v1
     ∧ let cp := fresh (dom (heap e1)) in
       let made := pool_New cp (config (self σ)) gasLimit
                     (set_heap (<[cp := sdb_Copy v1]> (heap e1)) e1) in
       self σ' = {| ethState := Some l; was := Some w; txPool := Some made.1;
                    config := config (self σ) |}
       ∧ env σ' = made.2
       ∧ calls σ' = calls σ ++ [DbGet rootKey; EthStateNew root; NewWAS root; NewPool cp]
       ∧ (∀ data, db (env σ) rootKey = Ok data → root = BytesToHash data)
       ∧ (∀ e, db (env σ) rootKey = Err e → root = zeroHash))
  ∧ (∀ root, Commit σ = Returns (root, None) σ' →
     ∃ w w1 e1 l v v' w2 e3 p p',
       was (self σ) = Some w
       ∧ was_Commit w (env σ) = (root, None, w1, e1)
       ∧ ethState (self σ) = Some l
       ∧ heap e1 !! l = Some v
       ∧ sdb_Reset root (db e1) v = Ok v'
       ∧ was_Reset root w1 (set_heap (<[l := v']> (heap e1)) e1) = (None, w2, e3)
       ∧ txPool (self σ) = Some p
       ∧ pool_Reset root p e3 = (None, p', env σ')
       ∧ self σ' = {| ethState := Some l; was := Some w2; txPool := Some p';
                      config := config (self σ) |}
       ∧ calls σ' = calls σ ++ [WasCommit; EthStateReset root; WasReset root;
                                PoolReset root]).
Proof.
  split; [| intros root; apply Commit_ok_inv].
  intros H root l. pose proof (InitState_run σ) as R. cbv zeta in R.
  fold root l in R.
  destruct (sdb_New root (db (env σ))) as [v|e] eqn:Hnew.
  2:{ destruct R as (σ'' & R & _). rewrite R in H. discriminate. }
  destruct (was_New root (config (self σ)) gasLimit _) as [[w|e] e1] eqn:Hwas.
  2:{ destruct R as (σ'' & R & _). rewrite R in H. discriminate. }
  destruct (heap e1 !! l) as [v1|] eqn:Hl.
  2:{ rewrite R in H. discriminate. }
  destruct R as (σ'' & R & Hcalls & Hself & Henv).
  rewrite R in H. injection H as ->.
  exists v, w, e1, v1.
  repeat (split; [first [reflexivity | assumption] |]).
  subst root. unfold storedRoot. split.
  - intros data ->. reflexivity.
  - intros e ->. reflexivity.
Qed.

(** ** CreateAccounts *)

Lemma written_same `{B : Backend} (l : loc) (v : StateDBv) (σ : World) :
  heap (env σ) !! l = Some v → written l v [] σ = σ.
Proof.
  intros H. destruct σ as [s [d h] c lg]. unfold written. simpl in *.
  rewrite insert_id by exact H. rewrite app_nil_r. reflexivity.
Qed.

Lemma written_written `{B : Backend} (l : loc) (v v' : StateDBv) lg lg' (σ : World) :
  written l v' lg' (written l v lg σ) = written l v' (lg ++ lg') σ.
Proof.
  unfold written. simpl. rewrite insert_insert_eq, app_assoc. reflexivity.
Qed.

Lemma rangeStorage_run `{B : Backend} (address : Address) kvs (σ : World) w v :
  was (self σ) = Some w →
  heap (env σ) !! was_ethState w = Some v →
  rangeStorage address kvs σ
  = Returns tt (written (was_ethState w) (seedStorage address kvs v) [] σ).
Proof.
  revert σ v. induction kvs as [|[key value] kvs IH]; intros σ v Hw Hv.
  - simpl. unfold seedStorage. simpl. rewrite written_same by exact Hv. reflexivity.
  - cbn [rangeStorage]. mred. rewrite Hw. mred. rewrite Hv. mred.
    erewrite IH; [| exact Hw | world_simpl; apply lookup_insert_eq].
    f_equal. destruct σ as [s [d h] c lg]. unfold written. simpl.
    rewrite insert_insert_eq. reflexivity.
Qed.

(** One turn of the outer loop, for a balance that parses. *)
Lemma rangeAccounts_step `{B : Backend} addr account rest (σ : World) w v amount :
  was (self σ) = Some w →
  heap (env σ) !! was_ethState w = Some v →
  ParseBig256 (Balance account) = Some amount →
  rangeAccounts ((addr, account) :: rest) σ
  = rangeAccounts rest
      (written (was_ethState w) (seedAccount addr account amount v)
         [addingAccount addr] σ).
Proof.
  intros Hw Hv Hp. cbn [rangeAccounts]. mred.
  rewrite Hw. mred. rewrite Hp. mred. rewrite Hv. mred.
  rewrite Hw. mred. rewrite lookup_insert_eq. mred.
  erewrite rangeStorage_run; [| exact Hw | world_simpl; apply lookup_insert_eq].
  mred. f_equal. destruct σ as [s [d h] c lg].
  unfold written, seedAccount, add_log, addingAccount. simpl.
  rewrite !insert_insert_eq, app_nil_r. reflexivity.
Qed.

(** One turn of the outer loop, for a balance that does not parse. *)
Lemma rangeAccounts_malformed `{B : Backend} addr account rest (σ : World) w :
  was (self σ) = Some w →
  ParseBig256 (Balance account) = None →
  rangeAccounts ((addr, account) :: rest) σ
  = Panics ("invalid 256 bit integer: " +:+ Balance account).
Proof.
  intros Hw Hp. cbn [rangeAccounts]. mred. rewrite Hw. mred. rewrite Hp. reflexivity.
Qed.

Lemma rangeAccounts_run `{B : Backend} accounts (σ : World) w v v' :
  was (self σ) = Some w →
  heap (env σ) !! was_ethState w = Some v →
  seedAccounts accounts v = Some v' →
  rangeAccounts accounts σ
  = Returns tt (written (was_ethState w) v' (map (λ a, addingAccount a.1) accounts) σ).
Proof.
  revert σ v. induction accounts as [|[addr account] rest IH]; intros σ v Hw Hv Hs.
  - simpl in *. injection Hs as <-. rewrite written_same by exact Hv. reflexivity.
  - cbn [seedAccounts] in Hs.
    destruct (ParseBig256 (Balance account)) as [amount|] eqn:Hp; [|discriminate].
    rewrite (rangeAccounts_step _ _ _ _ _ _ _ Hw Hv Hp).
    erewrite IH; [| exact Hw | apply lookup_insert_eq | exact Hs].
    rewrite written_written. reflexivity.
Qed.

Lemma rangeAccounts_panics `{B : Backend} accounts (σ : World) w v :
  was (self σ) = Some w →
  heap (env σ) !! was_ethState w = Some v →
  seedAccounts accounts v = None →
  ∃ addr account,
    (addr, account) ∈ accounts
    ∧ ParseBig256 (Balance account) = None
    ∧ rangeAccounts accounts σ = Panics ("invalid 256 bit integer: " +:+ Balance account).
Proof.
  revert σ v. induction accounts as [|[addr account] rest IH]; intros σ v Hw Hv Hs.
  - discriminate.
  - cbn [seedAccounts] in Hs.
    destruct (ParseBig256 (Balance account)) as [amount|] eqn:Hp.
    + rewrite (rangeAccounts_step _ _ _ _ _ _ _ Hw Hv Hp).
      destruct (IH (written (was_ethState w) (seedAccount addr account amount v)
                      [addingAccount addr] σ)
                   (seedAccount addr account amount v))
        as (a & acc & Hin & Hbad & Hrun);
        [exact Hw | apply lookup_insert_eq | exact Hs |].
      exists a, acc. split; [right; exact Hin|]. split; [exact Hbad | exact Hrun].
    + exists addr, account. split; [left|]. split; [exact Hp|].
      eapply rangeAccounts_malformed; eauto.
Qed.

Lemma seedAccounts_malformed `{B : Backend} accounts addr account :
  (addr, account) ∈ accounts →
  ParseBig256 (Balance account) = None →
  ∀ v, seedAccounts accounts v = None.
Proof.
  induction accounts as [|[a acc] rest IH]; intros Hin Hbad v.
  - inversion Hin.
  - cbn [seedAccounts]. destruct (ParseBig256 (Balance acc)) as [amount|] eqn:Hp; [|reflexivity].
    apply IH; [|exact Hbad]. inversion Hin; subst; [congruence | assumption].
Qed.

Lemma seedAccounts_wellformed `{B : Backend} (accounts : AccountMap) :
  Forall (λ a, is_Some (ParseBig256 (Balance a.2))) accounts →
  ∀ v, is_Some (seedAccounts accounts v).
Proof.
  induction 1 as [|[addr account] rest [amount Hp] _ IH]; intros v.
  - eexists. reflexivity.
  - cbn [seedAccounts]. simpl in Hp. rewrite Hp. apply IH.
Qed.

(** C9, as amended.  For an account map whose balances all parse,
    [CreateAccounts] writes every listed account into the ledger object of
    the WAS (its balance added, its code set, each of its storage entries
    set: [seedAccounts]), logs one line for each, and then calls [Commit]
    at once and returns the error [Commit] returns. *)
Theorem CreateAccounts_seeds_then_commits `{B : Backend} (accounts : AccountMap)
    (σ : World) w v :
  was (self σ) = Some w →
  heap (env σ) !! was_ethState w = Some v →
  Forall (λ a, is_Some (ParseBig256 (Balance a.2))) accounts →
  ∃ v',
    seedAccounts accounts v = Some v'
    ∧ CreateAccounts accounts σ
      = match Commit (written (was_ethState w) v'
                        (map (λ a, addingAccount a.1) accounts) σ) with
        | Returns (_, err) σ' => Returns err σ'
        | Panics r => Panics r
        end.
Proof.
  intros Hw Hv Hok.
  destruct (seedAccounts_wellformed accounts Hok v) as [v' Hs].
  exists v'. split; [exact Hs|]. unfold CreateAccounts.
  erewrite bind_returns by (eapply rangeAccounts_run; eauto).
  unfold mbind, M_bind. destruct (Commit _) as [[root err] σ'|r]; reflexivity.
Qed.

(** C10.  When a listed account has a balance that does not parse,
    [CreateAccounts] panics, with the message of [MustParseBig256] for such
    a balance; it does not return an error. *)
Theorem CreateAccounts_panics_on_malformed_balance `{B : Backend}
    (accounts : AccountMap) addr account (σ : World) w v :
  was (self σ) = Some w →
  heap (env σ) !! was_ethState w = Some v →
  (addr, account) ∈ accounts →
  ParseBig256 (Balance account) = None →
  ∃ addr' account',
    (addr', account') ∈ accounts
    ∧ ParseBig256 (Balance account') = None
    ∧ CreateAccounts accounts σ
      = Panics ("invalid 256 bit integer: " +:+ Balance account').
Proof.
  intros Hw Hv Hin Hbad.
  destruct (rangeAccounts_panics accounts σ w v Hw Hv
              (seedAccounts_malformed accounts addr account Hin Hbad v))
    as (a & acc & Hin' & Hbad' & Hrun).
  exists a, acc. split; [exact Hin'|]. split; [exact Hbad'|].
  unfold CreateAccounts. apply bind_panics. exact Hrun.
Qed.

(** The genesis accounts, on a node just started. *)
Lemma CreateAccounts_seeds_then_commits_witness :
  Forall (λ a, is_Some (ParseBig256 (Backend := solid) (Balance a.2))) genesis
  ∧ (∃ v',
       seedAccounts (B := solid) genesis [] = Some v'
       ∧ CreateAccounts genesis (started solid)
         = match Commit (written 2%positive v'
                           (map (λ a, addingAccount a.1) genesis) (started solid)) with
           | Returns (_, err) σ' => Returns err σ'
           | Panics r => Panics r
           end)
  ∧ returned (CreateAccounts genesis (started solid)) = Some None.
Proof.
  assert (Hok : Forall (λ a, is_Some (ParseBig256 (Backend := solid) (Balance a.2)))
                  genesis).
  { repeat constructor. exists 100. run. }
  assert (Hw : was (self (started solid)) = Some (2%positive, [])) by run.
  assert (Hv : heap (env (started solid)) !! 2%positive = Some []) by run.
  split; [exact Hok|]. split.
  - exact (CreateAccounts_seeds_then_commits (B := solid) genesis (started solid)
             (2%positive, []) [] Hw Hv Hok).
  - run.
Defined.

(** C9, as stated, fails for an account map with a balance that is not a
    number: the loop panics at that account, so [Commit] is not called and
    nothing is returned. *)
Lemma CreateAccounts_without_commit :
  ParseBig256 (Backend := solid) "12abc" = None
  ∧ rangeAccounts malformed (started solid)
    = Panics "invalid 256 bit integer: 12abc"
  ∧ CreateAccounts malformed (started solid)
    = Panics "invalid 256 bit integer: 12abc"
  ∧ returned (CreateAccounts malformed (started solid)) = None.
Proof.
  repeat split; run.
Qed.

Lemma CreateAccounts_panics_on_malformed_balance_witness :
  ParseBig256 (Backend := solid) "12abc" = None
  ∧ ∃ addr' account',
      (addr', account') ∈ malformed
      ∧ ParseBig256 (Backend := solid) (Balance account') = None
      ∧ CreateAccounts malformed (started solid)
        = Panics ("invalid 256 bit integer: " +:+ Balance account').
Proof.
  assert (Hbad : ParseBig256 (Backend := solid) "12abc" = None) by run.
  split; [exact Hbad|].
  eapply (CreateAccounts_panics_on_malformed_balance (B := solid) malformed alice
            {| Balance := "12abc"; Code := ""; Storage := [] |} (started solid)
            (2%positive, []) []).
  - run.
  - run.
  - apply list_elem_of_here.
  - exact Hbad.
Defined.

(** A node restarted on the store of [settled] starts all three states
    from the root stored there; the commit of the genesis accounts resets
    all three to the root it returns. *)
Lemma one_root_for_all_three_witness :
  (let σ := blank (B := solid) (db (env settled)) in
   ∃ σ' root cp,
     db (env σ) rootKey = Ok root
     ∧ InitState σ = Returns None σ'
     ∧ calls σ' = calls σ ++ [DbGet rootKey; EthStateNew (BytesToHash root);
                              NewWAS (BytesToHash root); NewPool cp])
  ∧ (∃ σ' root,
       Commit (seeded solid) = Returns (root, None) σ'
       ∧ calls σ' = calls (seeded solid) ++ [WasCommit; EthStateReset root;
                                             WasReset root; PoolReset root]).
Proof.
  split.
  - intros σ.
    eassert (Hget : db (env σ) rootKey = Ok _) by run.
    assert (H : InitState σ = Returns None (world_after σ (InitState σ))) by run.
    destruct (proj1 (one_root_for_all_three (B := solid) σ _) H)
      as (v & w & e1 & v1 & _ & _ & _ & _ & _ & Hcalls & Hroot & _).
    rewrite (Hroot _ Hget) in Hcalls.
    eexists _, _, _. split; [exact Hget|]. split; [exact H | exact Hcalls].
  - eassert (H : Commit (seeded solid)
                 = Returns (_, None) (world_after (seeded solid) (Commit (seeded solid))))
      by run.
    destruct (proj2 (one_root_for_all_three (B := solid) (seeded solid) _) _ H)
      as (w & w1 & e1 & l & v & v' & w2 & e3 & p & p' & _ & _ & _ & _ & _ & _ & _ & _ & _
          & Hcalls).
    eexists _, _. split; [exact H | exact Hcalls].
Defined.

(** C2, as stated, fails where the read of the root key fails.  The store
    of [settled] holds a root under the root key, and it is not the zero
    hash.  On the same store with a failing read of that key, [InitState]
    returns no error, and the [ethState] and the WAS are created from the
    zero hash, not from the root the store holds. *)
Lemma InitState_not_from_the_stored_root :
  ∃ root cp,
    db (env settled) rootKey = Ok root
    ∧ BytesToHash root ≠ zeroHash
    ∧ (∀ k, k ≠ rootKey → db (env restarted_unreadable) k = db (env settled) k)
    ∧ db (env restarted_unreadable) rootKey = Err "read: input/output error"
    ∧ returned (InitState restarted_unreadable) = Some None
    ∧ calls (world_after restarted_unreadable (InitState restarted_unreadable))
      = [DbGet rootKey; EthStateNew zeroHash; NewWAS zeroHash; NewPool cp].
Proof.
  eassert (Hget : db (env settled) rootKey = Ok _) by run.
  match type of Hget with
  | _ = Ok ?r => assert (Hnz : BytesToHash r ≠ zeroHash) by (vm_compute; discriminate)
  end.
  eexists _, _. split; [exact Hget|]. split; [exact Hnz|]. split.
  - intros k Hk.
    change (db (env restarted_unreadable))
      with (Ref.unreadable rootKey (db (env settled))).
    unfold Ref.unreadable. destruct (decide (k = rootKey)); [contradiction | reflexivity].
  - split; [run|]. split; run.
Qed.

(** * Further properties of state.go *)

(** ** Stepping through a call *)

Lemma bind_inv `{B : Backend} {A C} (m : M A) (f : A → M C) σ c σ'' :
  (m ≫= f) σ = Returns c σ'' →
  ∃ a σ', m σ = Returns a σ' ∧ f a σ' = Returns c σ''.
Proof.
  unfold mbind, M_bind. destruct (m σ) as [a σ'|r]; [eauto | discriminate].
Qed.

Lemma untouched_trans `{B : Backend} (σ1 σ2 σ3 : World) :
  untouched σ1 σ2 → untouched σ2 σ3 → untouched σ1 σ3.
Proof. unfold untouched. intros (-> & -> & ->) (-> & -> & ->). auto. Qed.

Lemma WriteAheadState_Commit_untouched `{B : Backend} (σ σ' : World) r :
  WriteAheadState_Commit σ = Returns r σ' → untouched σ σ'.
Proof.
  unfold WriteAheadState_Commit. mred.
  destruct (was (self σ)) as [w|]; mred; [|discriminate].
  destruct (was_Commit w (env σ)) as [[r' w'] e']. mred.
  intros [= _ <-]. unfold untouched. world_simpl. auto.
Qed.

Lemma WriteAheadState_Reset_untouched `{B : Backend} (σ σ' : World) root r :
  WriteAheadState_Reset root σ = Returns r σ' → untouched σ σ'.
Proof.
  unfold WriteAheadState_Reset. mred.
  destruct (was (self σ)) as [w|]; mred; [|discriminate].
  destruct (was_Reset root w (env σ)) as [[r' w'] e']. mred.
  intros [= _ <-]. unfold untouched. world_simpl. auto.
Qed.

Lemma TxPool_Reset_untouched `{B : Backend} (σ σ' : World) root r :
  TxPool_Reset root σ = Returns r σ' → untouched σ σ'.
Proof.
  unfold TxPool_Reset. mred.
  destruct (txPool (self σ)) as [p|]; mred; [|discriminate].
  destruct (pool_Reset root p (env σ)) as [[r' p'] e']. mred.
  intros [= _ <-]. unfold untouched. world_simpl. auto.
Qed.

Lemma ethState_Reset_untouched `{B : Backend} (σ σ' : World) root r :
  ethState_Reset root σ = Returns r σ' → untouched σ σ'.
Proof.
  unfold ethState_Reset, StateDB_Reset. mred.
  destruct (ethState (self σ)) as [l|]; mred; [|discriminate].
  destruct (heap (env σ) !! l) as [v|]; mred; [|discriminate].
  destruct (sdb_Reset root (db (env σ)) v) as [v'|e]; mred;
    intros [= _ <-]; unfold untouched; world_simpl; auto.
Qed.

(** What [Commit] logs, by how far it got. *)
Lemma Commit_logs `{B : Backend} (σ σ' : World) root err :
  Commit σ = Returns (root, err) σ' →
  ethState (self σ') = ethState (self σ)
  ∧ config (self σ') = config (self σ)
  ∧ match err with
    | None =>
      logs σ' = logs σ ++ [committed_line root; debug_line "Reset WAS";
                           debug_line "Reset TxPool"]
    | Some e =>
      logs σ' = logs σ ++ [error_line e "Committing WAS"]
      ∨ logs σ' = logs σ ++ [error_line e "Resetting main StateDB"]
      ∨ logs σ' = logs σ ++ [committed_line root; error_line e "Resetting WAS"]
      ∨ logs σ' = logs σ ++ [committed_line root; debug_line "Reset WAS";
                             error_line e "Resetting TxPool"]
    end.
Proof.
  unfold Commit. intros H.
  apply bind_inv in H as ([root1 [e1|]] & σ1 & H1 & H);
    apply WriteAheadState_Commit_untouched in H1 as (L1 & P1 & C1).
  { unfold logf, mbind, M_bind, mret, M_ret in H. simplify_eq.
    world_simpl. rewrite L1, P1, C1. auto. }
  apply bind_inv in H as ([e2|] & σ2 & H2 & H);
    apply ethState_Reset_untouched in H2 as (L2 & P2 & C2).
  { unfold logf, mbind, M_bind, mret, M_ret in H. simplify_eq.
    world_simpl. rewrite L2, P2, C2, L1, P1, C1. auto. }
  apply bind_inv in H as ([] & σ2' & Hlog & H).
  unfold logf in Hlog. simplify_eq.
  apply bind_inv in H as ([e3|] & σ3 & H3 & H);
    apply WriteAheadState_Reset_untouched in H3 as (L3 & P3 & C3); world_simpl.
  { unfold logf, mbind, M_bind, mret, M_ret in H. simplify_eq.
    world_simpl. rewrite L3, P3, C3, L2, P2, C2, L1, P1, C1.
    rewrite <- app_assoc. simpl. auto 6. }
  apply bind_inv in H as ([] & σ3' & Hlog & H).
  unfold logf in Hlog. simplify_eq.
  apply bind_inv in H as ([e4|] & σ4 & H4 & H);
    apply TxPool_Reset_untouched in H4 as (L4 & P4 & C4); world_simpl.
  { unfold logf, mbind, M_bind, mret, M_ret in H. simplify_eq.
    world_simpl. rewrite L4, P4, C4, L3, P3, C3, L2, P2, C2, L1, P1, C1.
    rewrite <- !app_assoc. simpl. auto 8. }
  unfold logf, mbind, M_bind, mret, M_ret in H. simplify_eq.
  world_simpl. rewrite L4, P4, C4, L3, P3, C3, L2, P2, C2, L1, P1, C1.
  rewrite <- !app_assoc. simpl. auto.
Qed.

(** ** Commit *)

(** X4.  Whatever [Commit] returns, [s.ethState] is the pointer it was
    before and the configuration is the one it was: a reset changes the
    committed object in place. *)
Theorem Commit_keeps_the_ethState_pointer `{B : Backend} (σ σ' : World) r :
  Commit σ = Returns r σ' →
  ethState (self σ') = ethState (self σ)
  ∧ config (self σ') = config (self σ).
Proof.
  destruct r as [root err]. intros H.
  destruct (Commit_logs σ σ' root err H) as (P & C & _). auto.
Qed.

Lemma Commit_keeps_the_ethState_pointer_witness :
  let σ := seeded lossy in
  ∃ r σ',
    Commit σ = Returns r σ'
    ∧ ethState (self σ) = Some 1%positive
    ∧ ethState (self σ') = ethState (self σ).
Proof.
  intros σ.
  eassert (H : Commit σ = Returns _ (world_after σ (Commit σ))) by run.
  destruct (Commit_keeps_the_ethState_pointer (B := lossy) σ _ _ H) as [P _].
  eexists _, _. split; [exact H|]. split; [run | exact P].
Defined.

(** X5.  [Commit] returns an error exactly when the last line it logged is
    at the error level, and that line then carries the error returned; all
    the other lines it logs are at the debug level.  A [Commit] that
    returns no error logs three debug lines. *)
Theorem Commit_logs_the_error_it_returns `{B : Backend} (σ σ' : World) root err :
  Commit σ = Returns (root, err) σ' →
  ∃ added,
    logs σ' = logs σ ++ added
    ∧ match err with
      | None => length added = 3%nat ∧ Forall (λ l, level l = DebugLevel) added
      | Some e =>
        ∃ before msg,
          added = before ++ [error_line e msg]
          ∧ Forall (λ l, level l = DebugLevel) before
      end.
Proof.
  intros H. destruct (Commit_logs σ σ' root err H) as (_ & _ & L).
  destruct err as [e|].
  - destruct L as [L|[L|[L|L]]]; eexists; (split; [exact L|]).
    + exists [], "Committing WAS". split; [reflexivity | constructor].
    + exists [], "Resetting main StateDB". split; [reflexivity | constructor].
    + exists [committed_line root], "Resetting WAS".
      split; [reflexivity | repeat constructor].
    + exists [committed_line root; debug_line "Reset WAS"], "Resetting TxPool".
      split; [reflexivity | repeat constructor].
  - eexists. split; [exact L|]. split; [reflexivity | repeat constructor].
Qed.

Lemma Commit_logs_the_error_it_returns_witness :
  let σ := seeded lossy in
  ∃ root σ' added,
    Commit σ = Returns (root, Some "missing trie node") σ'
    ∧ logs σ' = logs σ ++ added
    ∧ ∃ before msg,
        added = before ++ [error_line "missing trie node" msg]
        ∧ Forall (λ l, level l = DebugLevel) before.
Proof.
  intros σ.
  eassert (H : Commit σ = Returns (_, Some "missing trie node")
                 (world_after σ (Commit σ))) by run.
  destruct (Commit_logs_the_error_it_returns (B := lossy) σ _ _ _ H)
    as (added & L & W).
  eexists _, _, added. split; [exact H|]. split; [exact L | exact W].
Defined.

(** ** Call *)

(** X7.  Calls do not see each other: after a [Call] with one message, a
    [Call] with a second message returns what it would have returned
    without the first. *)
Theorem Call_after_Call `{B : Backend} (m1 m2 : Message) (σ : World) w v :
  was (self σ) = Some w →
  heap (env σ) !! was_ethState w = Some v →
  ∃ out1 σ1 out2 σ2 σ2',
    Call m1 σ = Returns out1 σ1
    ∧ Call m2 σ1 = Returns out2 σ2
    ∧ Call m2 σ = Returns out2 σ2'.
Proof.
  intros Hw Hv.
  destruct (Call_run m1 σ w v Hw Hv) as (σ1 & H1 & Hself & _ & _ & Hheap).
  assert (Hv1 : heap (env σ1) !! was_ethState w = Some v).
  { rewrite Hheap.
    assert (was_ethState w ≠ fresh (dom (heap (env σ)))) as Hne.
    { intros Heq. rewrite Heq in Hv. rewrite fresh_heap in Hv. discriminate. }
    rewrite !lookup_insert_ne by auto. exact Hv. }
  assert (Hw1 : was (self σ1) = Some w) by (rewrite Hself; exact Hw).
  destruct (Call_run m2 σ1 w v Hw1 Hv1) as (σ2 & H2 & _).
  destruct (Call_run m2 σ w v Hw Hv) as (σ2' & H2' & _).
  rewrite Hself in H2.
  eexists _, σ1, _, σ2, σ2'. split; [exact H1|]. split; [exact H2 | exact H2'].
Qed.

Lemma Call_after_Call_witness :
  let σ := world_after (seeded solid) (Commit (seeded solid)) in
  ∃ out1 σ1 out2 σ2 σ2',
    Call transfer10 σ = Returns out1 σ1
    ∧ Call transfer10 σ1 = Returns out2 σ2
    ∧ Call transfer10 σ = Returns out2 σ2'.
Proof.
  intros σ.
  assert (Hw : was (self σ) = Some (2%positive, [])) by run.
  eassert (Hv : heap (env σ) !! 2%positive = Some _) by run.
  exact (Call_after_Call (B := solid) transfer10 transfer10 σ (2%positive, []) _ Hw Hv).
Defined.

(** ** getFdLimit and NewState *)

(** X1.  For a soft limit that fits in 64 bits, [getFdLimit] returns a
    number that fits in a signed 64-bit [int]: the limit itself below
    [2^63], and from there on the limit less [2^64], which is negative (an
    unlimited number of descriptors gives [-1]). *)
Theorem getFdLimit_wraps (cur : Z) :
  0 ≤ cur < 2 ^ 64 →
  ∃ n, getFdLimit (Ok cur) = Ok n
       ∧ - 2 ^ 63 ≤ n < 2 ^ 63
       ∧ (cur < 2 ^ 63 → n = cur)
       ∧ (2 ^ 63 ≤ cur → n = cur - 2 ^ 64 ∧ n < 0).
Proof.
  intros Hc. unfold getFdLimit, int_of_uint64.
  destruct (Z.ltb_spec cur (2 ^ 63)); eexists; (split; [reflexivity|]); lia.
Qed.

Lemma getFdLimit_wraps_witness :
  0 ≤ 2 ^ 64 - 1 < 2 ^ 64 ∧ getFdLimit (Ok (2 ^ 64 - 1)) = Ok (-1).
Proof.
  assert (H : 0 ≤ 2 ^ 64 - 1 < 2 ^ 64) by lia.
  split; [exact H|].
  destruct (getFdLimit_wraps (2 ^ 64 - 1) H) as (n & E & _ & _ & W).
  rewrite E. f_equal. destruct W as [-> _]; lia.
Defined.



(** ** InitState *)

Lemma BytesToHash_length (b : bytes) : length (BytesToHash b) = HashLength.
Proof.
  unfold BytesToHash, HashLength.
  destruct (Nat.ltb_spec 32 (length b)).
  - rewrite length_app, repeat_length, length_drop. lia.
  - rewrite length_app, repeat_length. lia.
Qed.

Lemma BytesToHash_id (b : bytes) : length b = HashLength → BytesToHash b = b.
Proof.
  unfold BytesToHash, HashLength. intros H.
  rewrite H, Nat.ltb_irrefl, H. reflexivity.
Qed.

Lemma BytesToHash_crop (b : bytes) :
  (HashLength < length b)%nat → BytesToHash b = drop (length b - HashLength) b.
Proof.
  unfold BytesToHash, HashLength. intros H.
  destruct (Nat.ltb_spec 32 (length b)); [|lia].
  rewrite length_drop. replace (32 - _)%nat with 0%nat by lia. reflexivity.
Qed.

(** X9.  Whatever the store holds under the root key, the root
    [InitState] creates the [ethState] from has 32 bytes: it is the zero
    hash when the read fails or gives nothing, the stored bytes themselves
    when they are 32, and their last 32 bytes when they are more. *)
Theorem InitState_starts_from_a_hash `{B : Backend} (σ σ' : World) r :
  InitState σ = Returns r σ' →
  let d := db (env σ) in
  (∃ rest, calls σ' = calls σ ++ DbGet rootKey :: EthStateNew (storedRoot d) :: rest)
  ∧ length (storedRoot d) = 32%nat
  ∧ (is_Err (d rootKey) = true ∨ d rootKey = Ok [] → storedRoot d = zeroHash)
  ∧ (∀ data, d rootKey = Ok data → length data = 32%nat → storedRoot d = data)
  ∧ (∀ data, d rootKey = Ok data → (32 < length data)%nat →
       storedRoot d = drop (length data - 32) data).
Proof.
  intros H d. split; [|split; [|split; [|split]]].
  - pose proof (InitState_run σ) as R. cbv zeta in R. fold d in R.
    destruct (sdb_New (storedRoot d) d) as [v|e].
    2:{ destruct R as (σ'' & R & C). rewrite R in H. simplify_eq. eauto. }
    destruct (was_New _ _ _ _) as [[w|e] e1].
    2:{ destruct R as (σ'' & R & C). rewrite R in H. simplify_eq. eauto. }
    destruct (heap e1 !! _) as [v1|].
    2:{ rewrite R in H. discriminate. }
    destruct R as (σ'' & R & C & _). rewrite R in H. simplify_eq. eauto.
  - unfold storedRoot. destruct (d rootKey); [apply BytesToHash_length | reflexivity].
  - unfold storedRoot. intros [E|E].
    + destruct (d rootKey); [discriminate | reflexivity].
    + rewrite E. reflexivity.
  - unfold storedRoot. intros data -> L. apply BytesToHash_id. exact L.
  - unfold storedRoot. intros data -> L. apply BytesToHash_crop. exact L.
Qed.

Lemma InitState_starts_from_a_hash_witness :
  let σ := blank (B := solid) (db (env settled)) in
  ∃ data σ' rest,
    db (env σ) rootKey = Ok data
    ∧ length data = 32%nat
    ∧ InitState σ = Returns None σ'
    ∧ calls σ' = calls σ ++ DbGet rootKey :: EthStateNew data :: rest.
Proof.
  intros σ.
  eassert (Hget : db (env σ) rootKey = Ok _) by run.
  assert (H : InitState σ = Returns None (world_after σ (InitState σ))) by run.
  destruct (InitState_starts_from_a_hash (B := solid) σ _ _ H)
    as ((rest & Hc) & _ & _ & Hid & _).
  match type of Hget with
  | _ = Ok ?data => assert (L : length data = 32%nat) by run
  end.
  rewrite (Hid _ Hget L) in Hc.
  eexists _, _, rest. split; [exact Hget|]. split; [exact L|].
  split; [exact H | exact Hc].
Defined.



(** [InitState] when [ethState.New] fails: the pointer is set to [nil], the
    other two fields are left as they were. *)
Lemma InitState_New_err `{B : Backend} (σ : World) e :
  sdb_New (storedRoot (db (env σ))) (db (env σ)) = Err e →
  ∃ σ', InitState σ = Returns (Some e) σ'
        ∧ ethState (self σ') = None
        ∧ was (self σ') = was (self σ)
        ∧ txPool (self σ') = txPool (self σ)
        ∧ env σ' = env σ.
Proof.
  unfold storedRoot, InitState. mred. intros Hnew.
  destruct (db (env σ) rootKey) as [[|b data]|e0] eqn:Hget;
    [change (BytesToHash []) with zeroHash in Hnew | | ];
    (case_bool_decide as Hlen; [try (simpl in Hlen; congruence) | try (simpl in Hlen; lia)]);
    mred; rewrite Hnew; mred;
    eexists; (split; [reflexivity|]); world_simpl; auto.
Qed.

(** X3.  When [ethState.New] fails, [InitState] returns its error and
    leaves [s.ethState] nil, also on a coordinator that was initialised
    before; the WAS and the pool are the old ones.  [GetBalance] and
    [GetNonce] then panic for every address. *)
Theorem InitState_failure_leaves_no_ethState `{B : Backend} (σ : World) e :
  sdb_New (storedRoot (db (env σ))) (db (env σ)) = Err e →
  ∃ σ', InitState σ = Returns (Some e) σ'
        ∧ ethState (self σ') = None
        ∧ was (self σ') = was (self σ)
        ∧ txPool (self σ') = txPool (self σ)
        ∧ (∀ addr, GetBalance addr σ' = Panics nilDeref)
        ∧ (∀ addr, GetNonce addr σ' = Panics nilDeref).
Proof.
  intros Hnew. destruct (InitState_New_err σ e Hnew) as (σ' & H & Hn & Hw & Hp & _).
  exists σ'. split; [exact H|]. split; [exact Hn|]. split; [exact Hw|].
  split; [exact Hp|]. split; intros addr.
  - unfold GetBalance. mred. rewrite Hn. reflexivity.
  - unfold GetNonce. mred. rewrite Hn. reflexivity.
Qed.

(** The node that committed the genesis accounts on the store that lost
    them is initialised again: the root is in the store, the ledger is
    not. *)
Lemma InitState_failure_leaves_no_ethState_witness :
  let σ := world_after (seeded lossy) (Commit (seeded lossy)) in
  ethState (self σ) = Some 1%positive
  ∧ ∃ σ', InitState σ = Returns (Some "missing trie node") σ'
          ∧ ethState (self σ') = None
          ∧ GetBalance (msg_from transfer10) σ' = Panics nilDeref.
Proof.
  intros σ. split; [run|].
  assert (Hnew : sdb_New (Backend := lossy) (storedRoot (db (env σ))) (db (env σ))
                 = Err "missing trie node") by run.
  destruct (InitState_failure_leaves_no_ethState (B := lossy) σ _ Hnew)
    as (σ' & H & Hn & _ & _ & Hb & _).
  exists σ'. auto.
Defined.

(** ** The keys of the store *)

(** X8.  The keys state.go reads are kept apart: for 32-byte hashes, the
    key of a receipt is never the key of a transaction nor the root key,
    the key of a transaction is never the root key, and two hashes have
    the same receipt key only when they are the same hash. *)
Theorem store_keys_are_disjoint (h h' : Hash) :
  length h = HashLength →
  length h' = HashLength →
  receiptsPrefix ++ Hash_Bytes h ≠ Hash_Bytes h'
  ∧ receiptsPrefix ++ Hash_Bytes h ≠ rootKey
  ∧ Hash_Bytes h ≠ rootKey
  ∧ (receiptsPrefix ++ Hash_Bytes h = receiptsPrefix ++ Hash_Bytes h' → h = h').
Proof.
  unfold Hash_Bytes, HashLength. intros L L'. repeat split.
  - intros E. apply (f_equal length) in E. rewrite length_app, L, L' in E.
    simpl in E. lia.
  - intros E. apply (f_equal length) in E. rewrite length_app, L in E.
    simpl in E. lia.
  - intros E. apply (f_equal length) in E. rewrite L in E. simpl in E. lia.
  - apply app_inv_head.
Qed.

Lemma store_keys_are_disjoint_witness :
  length zeroHash = HashLength
  ∧ receiptsPrefix ++ Hash_Bytes zeroHash ≠ Hash_Bytes (Ref.txDigest tx30)
  ∧ receiptsPrefix ++ Hash_Bytes zeroHash ≠ rootKey.
Proof.
  assert (L : length zeroHash = HashLength) by reflexivity.
  assert (L' : length (Ref.txDigest tx30) = HashLength) by apply BytesToHash_length.
  destruct (store_keys_are_disjoint zeroHash (Ref.txDigest tx30) L L')
    as (H1 & H2 & _).
  auto.
Defined.

(** ** run *)

(** X13.  [run] returns no error exactly when the engine was built and
    ran without error.  When building fails the engine is not run: the
    system is as building left it.  The error returned says which of the
    two failed and why: the message of a failed build is never the message
    of a failed run, and the cause is what follows the prefix. *)
Theorem run_reports_the_stage {Engine Sys : Type}
    (NewSocketEngine : Sys → result Engine * Sys)
    (Run : Engine → Sys → option error * Sys) (w : Sys) :
  ((Commands.run NewSocketEngine Run w).1 = None
   ↔ ∃ eng w1, NewSocketEngine w = (Ok eng, w1) ∧ (Run eng w1).1 = None)
  ∧ (∀ e w1, NewSocketEngine w = (Err e, w1) →
       Commands.run NewSocketEngine Run w
       = (Some ("error building Engine: " +:+ e), w1))
  ∧ (∀ eng w1 e w2, NewSocketEngine w = (Ok eng, w1) → Run eng w1 = (Some e, w2) →
       Commands.run NewSocketEngine Run w
       = (Some ("error running Engine: " +:+ e), w2))
  ∧ (∀ e1 e2, Commands.Errorf "error building Engine: " e1
              ≠ Commands.Errorf "error running Engine: " e2)
  ∧ (∀ prefix e1 e2, Commands.Errorf prefix e1 = Commands.Errorf prefix e2 → e1 = e2).
Proof.
  unfold Commands.run, Commands.Errorf. repeat split.
  - destruct (NewSocketEngine w) as [[eng|e] w1]; [|discriminate].
    destruct (Run eng w1) as [[e|] w2] eqn:HR; [discriminate|].
    intros _. exists eng, w1. rewrite HR. auto.
  - intros (eng & w1 & -> & HR). destruct (Run eng w1) as [[e|] w2]; [discriminate|].
    reflexivity.
  - intros e w1 ->. reflexivity.
  - intros eng w1 e w2 -> ->. reflexivity.
  - intros e1 e2 E. simpl in E. discriminate.
  - intros prefix. induction prefix as [|c prefix IH]; intros e1 e2 E; simpl in E.
    + exact E.
    + injection E as E. apply IH. exact E.
Qed.

(** An engine that cannot be built, on a system that counts the runs. *)
Lemma run_reports_the_stage_witness :
  Commands.run (Engine := unit) (Sys := nat)
    (λ w, (Err "listen tcp: address already in use", w))
    (λ _ w, (None, S w)) 0%nat
  = (Some "error building Engine: listen tcp: address already in use", 0%nat).
Proof.
  apply (run_reports_the_stage (Engine := unit) (Sys := nat)). reflexivity.
Defined.

(** ** The loop of CreateAccounts *)

Lemma seedStorage_balance `{B : Backend} (address : Address) kvs (v : StateDBv) a :
  balance_laws →
  sdb_GetBalance (seedStorage address kvs v) a = sdb_GetBalance v a.
Proof.
  intros (_ & _ & Hstate). unfold seedStorage. revert v.
  induction kvs as [|kv kvs IH]; intros v; simpl; [reflexivity|].
  rewrite IH. apply Hstate.
Qed.

Lemma seedAccounts_balance `{B : Backend} (accounts : AccountMap) (v v' : StateDBv) a :
  balance_laws →
  seedAccounts accounts v = Some v' →
  sdb_GetBalance v' a = sdb_GetBalance v a + credited a accounts.
Proof.
  intros Hlaws. revert v.
  induction accounts as [|[addr account] rest IH]; intros v Hs.
  - simpl in *. injection Hs as <-. lia.
  - cbn [seedAccounts credited] in *.
    destruct (ParseBig256 (Balance account)) as [amount|]; [|discriminate].
    rewrite (IH _ Hs). unfold seedAccount.
    rewrite seedStorage_balance by exact Hlaws.
    destruct Hlaws as (Hadd & Hcode & _). rewrite Hcode, Hadd. simpl.
    destruct (decide (a = HexToAddress addr)), (decide (HexToAddress addr = a));
      try congruence; lia.
Qed.

Lemma credited_Permutation `{B : Backend} (a : Address) (l1 l2 : AccountMap) :
  l1 ≡ₚ l2 → credited a l1 = credited a l2.
Proof.
  induction 1 as [|[addr account] l1 l2 _ IH|[a1 c1] [a2 c2] l|l1 l2 l3 _ IH1 _ IH2];
    cbn [credited]; lia.
Qed.

(** The reference ledger keeps the promises about balances. *)
Lemma Ref_getAccount_setAccount (a a' : Address) acc (L : Ref.Ledger) :
  Ref.getAccount a (Ref.setAccount a' acc L)
  = if decide (a = a') then acc else Ref.getAccount a L.
Proof.
  induction L as [|[a0 acc0] L IH]; simpl.
  - destruct (decide (a = a')); reflexivity.
  - destruct (decide (a' = a0)) as [->|Hne]; simpl.
    + destruct (decide (a = a0)); reflexivity.
    + destruct (decide (a = a0)) as [->|Hne'].
      * destruct (decide (a0 = a')); [congruence | reflexivity].
      * exact IH.
Qed.

Lemma Ref_balance_laws durable : balance_laws (B := Ref.ledger durable).
Proof.
  unfold balance_laws. simpl. repeat split.
  - intros a a' n L. unfold Ref.balanceOf, Ref.credit.
    destruct (Ref.getAccount a' L) as [[[bal nn] c] st] eqn:E.
    rewrite Ref_getAccount_setAccount.
    destruct (decide (a = a')) as [->|]; [rewrite E|]; reflexivity.
  - intros a a' code L. unfold Ref.balanceOf, Ref.withCode.
    destruct (Ref.getAccount a' L) as [[[bal nn] c] st] eqn:E.
    rewrite Ref_getAccount_setAccount.
    destruct (decide (a = a')) as [->|]; [rewrite E|]; reflexivity.
  - intros a a' k x L. unfold Ref.balanceOf, Ref.withStorage.
    destruct (Ref.getAccount a' L) as [[[bal nn] c] st] eqn:E.
    rewrite Ref_getAccount_setAccount.
    destruct (decide (a = a')) as [->|]; [rewrite E|]; reflexivity.
Qed.

(** X10.  Given what [StateDB] promises about balances, the loop of
    [CreateAccounts] over an account map whose balances all parse leaves,
    for every address, the balance the WAS held before plus the sum of the
    balances listed under the keys that denote this address: keys that
    denote one address add up. *)
Theorem seeding_adds_the_listed_balances `{B : Backend} (accounts : AccountMap)
    (σ : World) w v :
  balance_laws →
  was (self σ) = Some w →
  heap (env σ) !! was_ethState w = Some v →
  Forall (λ a, is_Some (ParseBig256 (Balance a.2))) accounts →
  ∃ σ' v',
    rangeAccounts accounts σ = Returns tt σ'
    ∧ heap (env σ') !! was_ethState w = Some v'
    ∧ ∀ a, sdb_GetBalance v' a = sdb_GetBalance v a + credited a accounts.
Proof.
  intros Hlaws Hw Hv Hok.
  destruct (seedAccounts_wellformed accounts Hok v) as [v' Hs].
  eexists _, v'. split; [eapply rangeAccounts_run; eauto|]. split.
  - unfold written. world_simpl. apply lookup_insert_eq.
  - intros a. eapply seedAccounts_balance; eauto.
Qed.

(** Two keys, with and without the prefix, denote the address of alice:
    she is credited with both balances. *)
Lemma seeding_adds_the_listed_balances_witness :
  let accounts :=
    [(alice, {| Balance := "100"; Code := "6000"; Storage := [("01", "02")] |});
     ("00000000000000000000000000000000000000a1",
      {| Balance := "5"; Code := ""; Storage := [] |})] in
  ∃ σ' (l : loc) v',
    rangeAccounts (B := solid) accounts (started solid) = Returns tt σ'
    ∧ heap (env σ') !! l = Some v'
    ∧ sdb_GetBalance (Backend := solid) v' (HexToAddress (Backend := solid) alice) = 105.
Proof.
  intros accounts.
  eassert (Hw : was (self (started solid)) = Some _) by run.
  match type of Hw with
  | _ = Some ?w =>
    eassert (Hv : heap (env (started solid)) !! was_ethState (Backend := solid) w
                  = Some _) by run
  end.
  assert (Hok : Forall (λ a, is_Some (ParseBig256 (Backend := solid) (Balance a.2)))
                  accounts)
    by (repeat (constructor; [eexists; run|]); constructor).
  destruct (seeding_adds_the_listed_balances (B := solid) accounts (started solid) _ _
              (Ref_balance_laws true) Hw Hv Hok) as (σ' & v' & Hr & Hh & Hb).
  eexists σ', _, v'. split; [exact Hr|]. split; [exact Hh|].
  rewrite Hb. run.
Defined.

(** X11.  Given what [StateDB] promises about balances, the balances the
    loop of [CreateAccounts] leaves do not depend on the order in which
    the [range] over the map visits the accounts. *)
Theorem seeding_balances_ignore_the_order `{B : Backend} (accounts accounts' : AccountMap)
    (σ : World) w v :
  balance_laws →
  was (self σ) = Some w →
  heap (env σ) !! was_ethState w = Some v →
  Forall (λ a, is_Some (ParseBig256 (Balance a.2))) accounts →
  accounts ≡ₚ accounts' →
  ∃ σ1 v1 σ2 v2,
    rangeAccounts accounts σ = Returns tt σ1
    ∧ heap (env σ1) !! was_ethState w = Some v1
    ∧ rangeAccounts accounts' σ = Returns tt σ2
    ∧ heap (env σ2) !! was_ethState w = Some v2
    ∧ ∀ a, sdb_GetBalance v1 a = sdb_GetBalance v2 a.
Proof.
  intros Hlaws Hw Hv Hok Hperm.
  assert (Hok' : Forall (λ a, is_Some (ParseBig256 (Balance a.2))) accounts')
    by (rewrite <- Hperm; exact Hok).
  destruct (seedAccounts_wellformed accounts Hok v) as [v1 Hs1].
  destruct (seedAccounts_wellformed accounts' Hok' v) as [v2 Hs2].
  eexists _, v1, _, v2.
  split; [eapply rangeAccounts_run; eauto|].
  split; [unfold written; world_simpl; apply lookup_insert_eq|].
  split; [eapply rangeAccounts_run; eauto|].
  split; [unfold written; world_simpl; apply lookup_insert_eq|].
  intros a.
  rewrite (seedAccounts_balance _ _ _ a Hlaws Hs1),
          (seedAccounts_balance _ _ _ a Hlaws Hs2).
  rewrite (credited_Permutation a _ _ Hperm). reflexivity.
Qed.

Lemma seeding_balances_ignore_the_order_witness :
  let a := (alice, {| Balance := "100"; Code := "6000"; Storage := [("01", "02")] |}) in
  let b := (bob, {| Balance := "7"; Code := ""; Storage := [] |}) in
  ∃ σ1 (l : loc) v1 σ2 v2,
    rangeAccounts (B := solid) [a; b] (started solid) = Returns tt σ1
    ∧ heap (env σ1) !! l = Some v1
    ∧ rangeAccounts (B := solid) [b; a] (started solid) = Returns tt σ2
    ∧ heap (env σ2) !! l = Some v2
    ∧ ∀ x, sdb_GetBalance (Backend := solid) v1 x = sdb_GetBalance (Backend := solid) v2 x.
Proof.
  intros a b.
  eassert (Hw : was (self (started solid)) = Some _) by run.
  match type of Hw with
  | _ = Some ?w =>
    eassert (Hv : heap (env (started solid)) !! was_ethState (Backend := solid) w
                  = Some _) by run
  end.
  assert (Hok : Forall (λ a, is_Some (ParseBig256 (Backend := solid) (Balance a.2)))
                  [a; b])
    by (repeat (constructor; [eexists; run|]); constructor).
  destruct (seeding_balances_ignore_the_order (B := solid) [a; b] [b; a]
              (started solid) _ _ (Ref_balance_laws true) Hw Hv Hok (perm_swap b a []))
    as (σ1 & v1 & σ2 & v2 & H1 & L1 & H2 & L2 & Hb).
  eexists σ1, _, v1, σ2, v2. split; [exact H1|]. split; [exact L1|].
  split; [exact H2|]. split; [exact L2 | exact Hb].
Defined.

(** X12.  The loop of [CreateAccounts] writes into the object of the WAS
    and nowhere else: the coordinator's fields, the store, the calls made
    and every other object are as before.  So, while the committed state
    and the pool are other objects than the one of the WAS, [GetBalance],
    [GetNonce] and [GetPoolNonce] answer after the loop what they answered
    before it. *)
Theorem seeding_writes_the_WAS_only `{B : Backend} (accounts : AccountMap)
    (σ : World) w v :
  was (self σ) = Some w →
  heap (env σ) !! was_ethState w = Some v →
  Forall (λ a, is_Some (ParseBig256 (Balance a.2))) accounts →
  ∃ σ',
    rangeAccounts accounts σ = Returns tt σ'
    ∧ self σ' = self σ
    ∧ db (env σ') = db (env σ)
    ∧ calls σ' = calls σ
    ∧ (∀ l, l ≠ was_ethState w → heap (env σ') !! l = heap (env σ) !! l)
    ∧ (ethState (self σ) ≠ Some (was_ethState w) →
       ∀ addr, returned (GetBalance addr σ') = returned (GetBalance addr σ)
               ∧ returned (GetNonce addr σ') = returned (GetNonce addr σ))
    ∧ (∀ p, txPool (self σ) = Some p → pool_ethState p ≠ was_ethState w →
       ∀ addr, returned (GetPoolNonce addr σ') = returned (GetPoolNonce addr σ)).
Proof.
  intros Hw Hv Hok.
  destruct (seedAccounts_wellformed accounts Hok v) as [v' Hs].
  eexists. split; [eapply rangeAccounts_run; eauto|].
  unfold written. world_simpl.
  assert (Hframe : ∀ l, l ≠ was_ethState w →
            <[was_ethState w := v']> (heap (env σ)) !! l = heap (env σ) !! l)
    by (intros l Hl; apply lookup_insert_ne; auto).
  repeat split; auto.
  - unfold GetBalance. mred. destruct (ethState (self σ)) as [l|]; mred; [|reflexivity].
    rewrite Hframe by congruence.
    destruct (heap (env σ) !! l); reflexivity.
  - unfold GetNonce. mred. destruct (ethState (self σ)) as [l|]; mred; [|reflexivity].
    rewrite Hframe by congruence.
    destruct (heap (env σ) !! l); reflexivity.
  - intros p Hp Hne addr. unfold GetPoolNonce. mred. rewrite Hp. mred.
    rewrite Hframe by congruence.
    destruct (heap (env σ) !! pool_ethState p); reflexivity.
Qed.

(** After the genesis accounts were committed, bob is given 7 in the WAS:
    the committed state still answers what it answered. *)
Lemma seeding_writes_the_WAS_only_witness :
  let σ := world_after (seeded solid) (Commit (seeded solid)) in
  let more := [(bob, {| Balance := "7"; Code := ""; Storage := [] |})] in
  ∃ σ',
    rangeAccounts (B := solid) more σ = Returns tt σ'
    ∧ self σ' = self σ
    ∧ calls σ' = calls σ
    ∧ returned (GetBalance (B := solid) (HexToAddress (Backend := solid) bob) σ')
      = returned (GetBalance (B := solid) (HexToAddress (Backend := solid) bob) σ).
Proof.
  intros σ more.
  eassert (Hw : was (self σ) = Some _) by run.
  match type of Hw with
  | _ = Some ?w =>
    eassert (Hv : heap (env σ) !! was_ethState (Backend := solid) w = Some _) by run;
    assert (Hne : ethState (self σ) ≠ Some (was_ethState (Backend := solid) w))
      by (vm_compute; discriminate)
  end.
  assert (Hok : Forall (λ a, is_Some (ParseBig256 (Backend := solid) (Balance a.2)))
                  more)
    by (repeat (constructor; [eexists; run|]); constructor).
  destruct (seeding_writes_the_WAS_only (B := solid) more σ _ _ Hw Hv Hok)
    as (σ' & Hr & Hs & _ & Hc & _ & Hget & _).
  exists σ'. split; [exact Hr|]. split; [exact Hs|]. split; [exact Hc|].
  apply (Hget Hne).
Defined.
